(** * tds-dashboard: the reading store, its queries and the quality classification

    A shallow embedding of [utils/storage.py], of the request handler of
    [ingest/http_server.py], of the line parser of
    [ingest/serial_ingest.py] and of [get_water_quality_status] of
    [dashboard/app.py].

    Conventions of the embedding.

    - The SQLite table [readings] is the list of its rows in rowid order,
      together with the AUTOINCREMENT counter.
    - A [timestamp] is the ISO-8601 text the code stores; SQLite compares
      the texts and pandas the parsed instants.  Both orders are the
      chronological one on such texts, and the model keeps the instant, in
      microseconds, as a [Z].  [datetime.now()] is an argument of every
      function that reads the clock, one argument per call of it.
    - [tds] and [voltage] are IEEE binary64 numbers ([float]).
    - [ORDER BY] is the sort [sort_by] below, which keeps rows with equal
      keys in the order it met them: SQLite walks the rows of equal key in
      rowid order.  [DataFrame.sort_values] is a parameter, [frame_sort]:
      some sort by the key, not known to keep equal keys in place. *)

From Stdlib Require Import String Ascii.
From Stdlib Require Import ZArith List Bool Lia.
From Stdlib Require Import Sorting.Sorted Sorting.Permutation.
From Stdlib Require Import Floats DecimalString.
Import ListNotations.

Set Warnings "-inexact-float,-register-all".
Local Open Scope string_scope.
Local Open Scope list_scope.
Local Open Scope Z_scope.

(** ** Sorting by insertion, the order of equal keys kept *)

Section SortBy.
Context {A : Type}.
Variable le : A -> A -> bool.

Fixpoint insert_by (x : A) (l : list A) : list A :=
  match l with
  | [] => [x]
  | y :: l' => if le x y then x :: l else y :: insert_by x l'
  end.

Definition sort_by (l : list A) : list A := fold_right insert_by [] l.
End SortBy.

(** ** The reading store ([utils/storage.py]) *)

Module Storage.

(** One row of the table [readings]. *)
Record reading := mk_reading {
  id : Z;
  device_id : string;
  device_ip : option string;
  tds : float;
  voltage : option float;
  timestamp : Z;
  created_at : Z
}.

(** The table, in rowid order, and the largest rowid ever given out
    (the table is declared [AUTOINCREMENT]). *)
Record database := mk_database {
  readings : list reading;
  last_rowid : Z
}.

Definition empty_database : database := mk_database [] 0.

(** [CREATE TABLE IF NOT EXISTS]: a database file that is there is kept. *)
Definition init_database (file : option database) : database :=
  match file with
  | Some db => db
  | None => empty_database
  end.

(** [timedelta(minutes=m)] and [timedelta(days=d)], in microseconds. *)
Definition timedelta_minutes (m : Z) : Z := m * 60000000.
Definition timedelta_days (d : Z) : Z := d * 86400000000.

(** What SQLite keeps of a number: a zero is kept as the integer 0 and
    read back as 0.0, so the sign of -0.0 is lost; every other number
    comes back as it was. *)
Definition sqlite_real (x : float) : float :=
  if (x =? 0)%float then 0%float else x.

(** The driver binds a NaN as [NULL]. *)
Definition bind_real (x : float) : option float :=
  if PrimFloat.is_nan x then None else Some (sqlite_real x).

(** [now] is read when no timestamp is given, [now'] for [created_at].
    The result is [None] when the [INSERT] raises: [tds] is declared
    [NOT NULL]; nothing is written then. *)
Definition append_reading (now now' : Z) (db : database)
    (device_id : string) (tds : float) (voltage : option float)
    (timestamp : option Z) (device_ip : option string) : option database :=
  let timestamp := match timestamp with None => now | Some t => t end in
  let created_at := now' in
  match bind_real tds with
  | None => None
  | Some tds =>
      let voltage :=
        match voltage with Some v => bind_real v | None => None end in
      let rowid := last_rowid db + 1 in
      Some (mk_database
              (readings db ++
                 [mk_reading rowid device_id device_ip tds voltage
                    timestamp created_at])
              rowid)
  end.

(** *** The pieces of a [SELECT] *)

Definition sql_where (conditions : list (reading -> bool)) (rs : list reading) :=
  filter (fun r => forallb (fun c => c r) conditions) rs.

Definition order_by_timestamp_desc (rs : list reading) : list reading :=
  sort_by (fun a b => timestamp b <=? timestamp a) rs.

(** [LIMIT n]: a negative [n] is no limit in SQLite. *)
Definition sql_limit (n : Z) (rs : list reading) : list reading :=
  if n <? 0 then rs else firstn (Z.to_nat n) rs.

(** [df.sort_values('timestamp')].  The call names no [kind], and the
    default sort of pandas need not keep rows of equal key in the order
    of the frame.  So the sort is any function that returns the rows of
    the frame in ascending order of timestamp, and nothing more is known
    of it. *)
Record frame_sort := mk_frame_sort {
  sort_values_timestamp : list reading -> list reading;
  sort_values_perm :
    forall df, Permutation df (sort_values_timestamp df);
  sort_values_sorted :
    forall df,
      StronglySorted (fun a b => timestamp a <= timestamp b)
        (sort_values_timestamp df)
}.

Definition empty {A} (df : list A) : bool :=
  match df with [] => true | _ => false end.

Definition default_limit : Z := 1000.

(** The [conditions] of the [WHERE] clause.  [if minutes:] and
    [if device_id:] are Python truth tests: [None], [0] and the empty
    string are false. *)
Definition range_conditions (now : Z) (minutes : option Z)
    (device_id : option string) : list (reading -> bool) :=
  let time_condition :=
    match minutes with
    | Some m =>
        if m =? 0 then []
        else
          let cutoff_time := now - timedelta_minutes m in
          [fun r => cutoff_time <=? timestamp r]
    | None => []
    end in
  let device_condition :=
    match device_id with
    | Some d =>
        if String.eqb d "" then []
        else [fun r => String.eqb (Storage.device_id r) d]
    | None => []
    end in
  time_condition ++ device_condition.

(** [pd] is the sort of the pandas at hand. *)
Definition last_n_readings (pd : frame_sort) (now : Z) (db : database)
    (minutes : option Z) (limit : Z) (device_id : option string) : list reading :=
  let conditions := range_conditions now minutes device_id in
  let df :=
    sql_limit limit
      (order_by_timestamp_desc (sql_where conditions (readings db))) in
  if negb (empty df) then sort_values_timestamp pd df else df.

(** *** Latest reading of each device *)

Record latest_row := mk_latest_row {
  latest_device_id : string;
  latest_device_ip : option string;
  latest_tds : float;
  latest_voltage : option float;
  latest_timestamp : Z;
  latest_created_at : Z;
  last_seen : Z
}.

(** [GROUP BY device_id]: the groups in the order of the key, each with
    its rows in rowid order. *)
Definition device_ids (rs : list reading) : list string :=
  sort_by String.leb (nodup string_dec (map device_id rs)).

Definition group_of (rs : list reading) (d : string) : list reading :=
  filter (fun r => String.eqb (device_id r) d) rs.

(** [MAX(timestamp)] with bare columns: the columns come from the row
    that holds the maximum; SQLite replaces the row it holds only for a
    strictly larger value. *)
Definition max_timestamp_step (best : option reading) (r : reading) :=
  match best with
  | None => Some r
  | Some b => if timestamp b <? timestamp r then Some r else best
  end.

Definition max_timestamp_row (group : list reading) : option reading :=
  fold_left max_timestamp_step group None.

Definition latest_of (r : reading) : latest_row :=
  mk_latest_row (device_id r) (device_ip r) (tds r) (voltage r)
    (timestamp r) (created_at r) (timestamp r).

Definition order_by_last_seen_desc (ls : list latest_row) : list latest_row :=
  sort_by (fun a b => last_seen b <=? last_seen a) ls.

Definition get_latest_by_device (db : database) : list latest_row :=
  let rs := readings db in
  let per_group :=
    flat_map
      (fun d => match max_timestamp_row (group_of rs d) with
                | Some r => [latest_of r]
                | None => []
                end)
      (device_ids rs) in
  order_by_last_seen_desc per_group.

(** *** Retention and statistics *)

(** [DELETE FROM readings WHERE timestamp < ?], and [cursor.rowcount]. *)
Definition clear_old_readings (now : Z) (db : database) (days : Z)
  : Z * database :=
  let cutoff_time := now - timedelta_days days in
  let old := filter (fun r => timestamp r <? cutoff_time) (readings db) in
  let kept := filter (fun r => negb (timestamp r <? cutoff_time)) (readings db) in
  (Z.of_nat (length old), mk_database kept (last_rowid db)).

Record stats := mk_stats {
  total_readings : Z;
  total_devices : Z;
  earliest : option Z;
  latest : option Z
}.

Definition sql_min (ts : list Z) : option Z :=
  match ts with [] => None | t :: ts' => Some (fold_left Z.min ts' t) end.
Definition sql_max (ts : list Z) : option Z :=
  match ts with [] => None | t :: ts' => Some (fold_left Z.max ts' t) end.

Definition get_stats (db : database) : stats :=
  let rs := readings db in
  mk_stats
    (Z.of_nat (length rs))
    (Z.of_nat (length (nodup string_dec (map device_id rs))))
    (sql_min (map timestamp rs))
    (sql_max (map timestamp rs)).

(** *** The device list *)

Definition device_row_dec (a b : string * Z) : {a = b} + {a <> b}.
Proof. decide equality; [apply Z.eq_dec|apply string_dec]. Defined.

(** [SELECT DISTINCT device_id, MAX(timestamp) as last_seen ... GROUP BY
    device_id ORDER BY last_seen DESC], the rows as [fetchall] gives
    them. *)
Definition get_device_list (db : database) : list (string * Z) :=
  let rs := readings db in
  let per_group :=
    flat_map
      (fun d => match sql_max (map timestamp (group_of rs d)) with
                | Some t => [(d, t)]
                | None => []
                end)
      (device_ids rs) in
  sort_by (fun a b => snd b <=? snd a) (nodup device_row_dec per_group).

(** *** Export *)

(** The files the process can see: the frame each path was written from. *)
Definition files := string -> option (list reading).

Record world := mk_world {
  store : database;
  disk : files
}.

(** [df.to_csv(path, index=False)] *)
Definition to_csv (df : list reading) (path : string) (fs : files) : files :=
  fun p => if String.eqb p path then Some df else fs p.

Definition default_export_path : string := "data/tds_export.csv".

(** [days * 24 * 60 if days else None] *)
Definition days_to_minutes (days : option Z) : option Z :=
  match days with
  | Some d => if d =? 0 then None else Some (d * 24 * 60)
  | None => None
  end.

Definition export_limit : Z := 100000.

(** The result is the path written, [None] when there is nothing to
    export. *)
Definition export_csv (pd : frame_sort) (now : Z) (w : world)
    (path : string) (device_id : option string) (days : option Z)
  : option string * world :=
  let minutes := days_to_minutes days in
  let df := last_n_readings pd now (store w) minutes export_limit device_id in
  if negb (empty df)
  then (Some path, mk_world (store w) (to_csv df path (disk w)))
  else (None, w).

(** *** Histories of the store *)

(** The two calls that write to the table. *)
Inductive operation :=
| Append (now now' : Z) (device_id : string) (tds : float)
    (voltage : option float) (timestamp : option Z) (device_ip : option string)
| Prune (now : Z) (days : Z).

(** A call that raises leaves the table as it was. *)
Definition apply_operation (db : database) (op : operation) : database :=
  match op with
  | Append now now' device_id tds voltage timestamp device_ip =>
      match append_reading now now' db device_id tds voltage timestamp device_ip with
      | Some db' => db'
      | None => db
      end
  | Prune now days => snd (clear_old_readings now db days)
  end.

Definition run (ops : list operation) (db : database) : database :=
  fold_left apply_operation ops db.

(** *** What the statements below speak of *)

(** The rowids of a table ascend in scan order and are not above the
    counter. *)
Definition well_formed (db : database) : Prop :=
  ForallOrdPairs (fun a b => id a < id b) (readings db) /\
  Forall (fun r => id r <= last_rowid db) (readings db).

(** The readings a range query selects, before order and limit. *)
Definition matching (now : Z) (db : database) (minutes : option Z)
    (device_id : option string) : list reading :=
  sql_where (range_conditions now minutes device_id) (readings db).

Definition tie_order (a b : reading) : Prop :=
  timestamp a = timestamp b -> id a < id b.

(** Ascending by timestamp, equal timestamps by ascending id. *)
Definition chart_order (a b : reading) : Prop :=
  timestamp a < timestamp b \/ (timestamp a = timestamp b /\ id a < id b).

(** The reading of C1 as it is stated: whatever the table and the
    query, the rows come in ascending order of timestamp, equal
    timestamps in ascending order of id. *)
Definition chart_claim : Prop :=
  forall pd now db minutes limit device_id,
    well_formed db ->
    StronglySorted chart_order (last_n_readings pd now db minutes limit device_id).

(** A sort that leaves rows of equal timestamp as they were in the
    frame. *)
Definition keeps_ties (pd : frame_sort) : Prop :=
  forall df,
    ForallOrdPairs tie_order df ->
    ForallOrdPairs tie_order (sort_values_timestamp pd df).

(** The reading of C5 as it is stated: with the default limit, a
    [minutes] window returns the readings of the last [minutes] minutes
    before [now], and no others. *)
Definition window_claim (pd : frame_sort) (now : Z) (db : database)
    (minutes : Z) : Prop :=
  forall r,
    In r (last_n_readings pd now db (Some minutes) default_limit None) <->
    In r (readings db) /\
    now - timedelta_minutes minutes <= timestamp r <= now.

(** The row [MAX(timestamp)] picks for a device: the first, in rowid
    order, of the readings of the device with the largest timestamp. *)
Definition newest_of (db : database) (r : reading) : Prop :=
  In r (readings db) /\
  forall o, In o (readings db) -> device_id o = device_id r ->
    timestamp o < timestamp r \/ (timestamp o = timestamp r /\ id r <= id o).

(** The reading of C2 as it is stated: each row of the result carries
    the values of a reading that is the newest of its device, the one of
    highest id among those of the newest timestamp. *)
Definition latest_claim (db : database) : Prop :=
  forall l, In l (get_latest_by_device db) ->
    exists r,
      In r (readings db) /\ l = latest_of r /\
      forall o, In o (readings db) -> device_id o = device_id r ->
        timestamp o < timestamp r \/ (timestamp o = timestamp r /\ id o <= id r).

(** *** Sample tables *)

(** 2025-10-30T12:34:56, in microseconds since 1970. *)
Definition sample_now : Z := 1761827696000000.

Definition at_minutes (k : Z) : Z := sample_now + timedelta_minutes k.

(** Readings of one device 60, 10 and 1 minutes ago. *)
Definition window_db : database :=
  mk_database
    [mk_reading 1 "d1" None 310 None (at_minutes (-60)) (at_minutes (-60));
     mk_reading 2 "d1" None 320 None (at_minutes (-10)) (at_minutes (-10));
     mk_reading 3 "d1" None 330 None (at_minutes (-1)) (at_minutes (-1))]
    3.

(** [n] readings of one device, all taken now. *)
Definition crowded_db (n : nat) : database :=
  mk_database
    (map (fun i => mk_reading (Z.of_nat i) "d1" None 250 None sample_now sample_now)
       (seq 1 n))
    (Z.of_nat n).

(** One reading whose device clock is an hour ahead. *)
Definition ahead_db : database :=
  mk_database
    [mk_reading 1 "d1" None 250 None (at_minutes 60) sample_now] 1.

(** Two devices; the readings of [d1] carry the same timestamp. *)
Definition tie_db : database :=
  mk_database
    [mk_reading 1 "d2" None 0.5 None (at_minutes (-20)) (at_minutes (-20));
     mk_reading 2 "d1" (Some "10.0.0.7") 100 (Some 3.3%float) (at_minutes (-30)) (at_minutes (-30));
     mk_reading 3 "d1" (Some "10.0.0.8") 200 (Some 5%float) (at_minutes (-30)) (at_minutes (-29));
     mk_reading 4 "d2" None 3 None (at_minutes (-5)) (at_minutes (-5))]
    4.

End Storage.

(** ** The HTTP ingestion endpoint ([ingest/http_server.py]) *)

Module HttpServer.
Import Storage.

(** A value of the JSON body. *)
Inductive json :=
| JNull
| JBool (b : bool)
| JInt (n : Z)
| JFloat (x : float)
| JString (s : string)
| JArray (items : list json)
| JObject (members : list (string * json)).

(** The body of [POST /api/tds].  [tds] is what the handler converts, so
    it is any JSON value; the other fields go to the store as they are
    and have the types of its columns.  [None] is a key that is missing
    or [null]. *)
Record payload := mk_payload {
  payload_device_id : option string;
  payload_device_ip : option string;
  payload_tds : option json;
  payload_voltage : option float;
  payload_timestamp : option Z
}.

Record request := mk_request {
  body : payload;
  client_host : string
}.

(** An answer.  The detail of a 500 also carries the text of the error
    in the source; that text is left out. *)
Inductive response :=
| JSONResponse (status_code : Z) (device_id : string) (tds : float) (timestamp : Z)
| HTTPException (status_code : Z) (detail : string).

(** Python's [float(v)]. *)
Inductive float_result :=
| FloatValue (x : float)
| ValueError
| OtherError.

Section Handler.
(** [float] of a text, [None] when it raises [ValueError]; [float] of
    an integer, [None] when it raises [OverflowError]. *)
Variable float_of_string : string -> option float.
Variable float_of_int : Z -> option float.

Definition py_float (v : json) : float_result :=
  match v with
  | JFloat x => FloatValue x
  | JInt n =>
      match float_of_int n with
      | Some x => FloatValue x
      | None => OtherError
      end
  | JBool b => FloatValue (if b then 1%float else 0%float)
  | JString s =>
      match float_of_string s with
      | Some x => FloatValue x
      | None => ValueError
      end
  | JNull | JArray _ | JObject _ => OtherError
  end.

(** [now] and [now'] are the clock readings of [append_reading],
    [now''] the one of the answer.  The answer is built inside the
    [try], after the reading is committed: [JSONResponse] raises for a
    [tds] that is not finite, and the request then ends in a 500 with
    the reading stored. *)
Definition receive_tds (now now' now'' : Z) (db : database) (req : request)
  : response * database :=
  let payload := body req in
  let device_id := payload_device_id payload in
  let tds := payload_tds payload in
  let voltage := payload_voltage payload in
  let timestamp := payload_timestamp payload in
  let device_ip :=
    match payload_device_ip payload with
    | Some ip => if String.eqb ip "" then client_host req else ip
    | None => client_host req
    end in
  match device_id with
  | None => (HTTPException 400 "Missing device_id", db)
  | Some device_id =>
      if String.eqb device_id ""
      then (HTTPException 400 "Missing device_id", db)
      else
        match tds with
        | None | Some JNull => (HTTPException 400 "Missing tds value", db)
        | Some tds =>
            match py_float tds with
            | ValueError =>
                (HTTPException 400 "Invalid tds value (must be numeric)", db)
            | OtherError => (HTTPException 500 "Internal server error", db)
            | FloatValue tds =>
                match append_reading now now' db device_id tds voltage
                        timestamp (Some device_ip) with
                | None => (HTTPException 500 "Internal server error", db)
                | Some db' =>
                    if PrimFloat.is_finite tds
                    then
                      (JSONResponse 200 device_id tds
                         (match timestamp with Some t => t | None => now'' end),
                       db')
                    else (HTTPException 500 "Internal server error", db')
                end
            end
        end
  end.

(** A body the endpoint is to refuse: no [device_id] or an empty one,
    no [tds], or a [tds] that [float] does not convert. *)
Definition invalid_payload (p : payload) : Prop :=
  payload_device_id p = None \/
  payload_device_id p = Some "" \/
  payload_tds p = None \/
  payload_tds p = Some JNull \/
  exists v, payload_tds p = Some v /\ forall x, py_float v <> FloatValue x.
End Handler.

(** The reading of C3 as it is stated, on [append_reading]: a call with
    an empty [device_id] leaves the stored readings as they were. *)
Definition append_rejects_claim : Prop :=
  forall now now' db tds voltage timestamp device_ip,
    match append_reading now now' db "" tds voltage timestamp device_ip with
    | Some db' => readings db' = readings db
    | None => True
    end.

(** [payload.get("device_ip") or request.client.host] *)
Definition stored_ip (req : request) : string :=
  match payload_device_ip (body req) with
  | Some ip => if String.eqb ip "" then client_host req else ip
  | None => client_host req
  end.

(** A converter for the samples: it knows two texts. *)
Definition sample_float_of_string (s : string) : option float :=
  if String.eqb s "345.7" then Some 345.7%float
  else if String.eqb s "5.0" then Some 5%float
  else None.

Definition sample_float_of_int (n : Z) : option float :=
  if n =? 250 then Some 250%float else None.

Definition sample_request (device_id : option string) (tds : option json) : request :=
  mk_request (mk_payload device_id None tds None None) "192.168.1.42".

End HttpServer.

(** ** The serial ingestion ([ingest/serial_ingest.py]) *)

Module SerialIngest.
Import Storage.

(** [line.split(",")] *)
Fixpoint split_comma (line : string) : list string :=
  match line with
  | EmptyString => [EmptyString]
  | String c rest =>
      if Ascii.eqb c ","%char then EmptyString :: split_comma rest
      else
        match split_comma rest with
        | part :: parts => String c part :: parts
        | [] => [String c EmptyString]
        end
  end.

(** A sample of [str.strip()], for lines of ASCII characters: the
    blanks among these. *)
Definition is_space (c : ascii) : bool :=
  let n := nat_of_ascii c in
  ((9 <=? n) && (n <=? 13) || (28 <=? n) && (n <=? 32))%nat.

Fixpoint lstrip (s : string) : string :=
  match s with
  | EmptyString => EmptyString
  | String c rest => if is_space c then lstrip rest else s
  end.

Fixpoint rstrip (s : string) : string :=
  match s with
  | EmptyString => EmptyString
  | String c rest =>
      match rstrip rest with
      | EmptyString => if is_space c then EmptyString else String c EmptyString
      | rest' => String c rest'
      end
  end.

Definition strip_ascii (s : string) : string := rstrip (lstrip s).

Section Parser.
(** [str.strip()], which removes the white space of Unicode at both
    ends; [float] of a text, [None] when it raises [ValueError]; and
    the instant a timestamp text stands for. *)
Variable strip : string -> string.
Variable float_of_string : string -> option float.
Variable instant_of_text : string -> Z.

(** [None] is the answer [None] of the source, for a line it refuses. *)
Definition parse_serial_line (line : string)
  : option (string * float * option float * option Z) :=
  let parts := split_comma line in
  if (length parts <? 2)%nat then None
  else
    let device_id := strip (nth 0 parts "") in
    match float_of_string (strip (nth 1 parts "")) with
    | None => None
    | Some tds =>
        let timestamp :=
          if (3 <? length parts)%nat && negb (String.eqb (strip (nth 3 parts "")) "")
          then Some (instant_of_text (strip (nth 3 parts "")))
          else None in
        if (2 <? length parts)%nat && negb (String.eqb (strip (nth 2 parts "")) "")
        then
          match float_of_string (strip (nth 2 parts "")) with
          | None => None
          | Some voltage => Some (device_id, tds, Some voltage, timestamp)
          end
        else Some (device_id, tds, None, timestamp)
    end.

(** One turn of [read_serial_loop] on a line that is not blank: the
    line is stored when it parses; an error of the store is printed
    and the loop goes on. *)
Definition read_serial_line (now now' : Z) (db : database) (line : string)
  : database :=
  match parse_serial_line line with
  | Some (device_id, tds, voltage, timestamp) =>
      match append_reading now now' db device_id tds voltage timestamp
              (Some "SERIAL") with
      | Some db' => db'
      | None => db
      end
  | None => db
  end.
(** [read_serial_loop] on the lines received so far, each with the
    clock readings of its [append_reading]: a line is stripped, and
    skipped when nothing is left. *)
Definition read_serial_loop (received : list (string * Z * Z)) (db : database)
  : database :=
  fold_left
    (fun db event =>
       let '(raw, now, now') := event in
       let line := strip raw in
       if String.eqb line "" then db
       else read_serial_line now now' db line)
    received db.
End Parser.

(** A field of a line: a text without comma. *)
Fixpoint no_comma (s : string) : bool :=
  match s with
  | EmptyString => true
  | String c rest => negb (Ascii.eqb c ","%char) && no_comma rest
  end.

(** The line of four fields. *)
Definition serial_line (device_id tds voltage timestamp : string) : string :=
  (device_id ++ "," ++ tds ++ "," ++ voltage ++ "," ++ timestamp)%string.

End SerialIngest.

(** ** The quality classification ([dashboard/app.py]) *)

Module Dashboard.

(** The entry [thresholds] of the configuration.  Python compares a
    float with an integer threshold by value, so the thresholds are kept
    as the floats of the same value. *)
Record thresholds := mk_thresholds {
  good : float;
  moderate : float
}.

Definition default_thresholds : thresholds := mk_thresholds 300 600.

Definition get_water_quality_status (tds : float) (thresholds : thresholds)
  : string * string * string :=
  if (tds <? good thresholds)%float then ("Good", "🟢", "#28a745")
  else if (tds <? moderate thresholds)%float then ("Moderate", "🟡", "#ffc107")
  else ("Poor", "🔴", "#dc3545").

Definition status (r : string * string * string) : string := fst (fst r).

(** *** The device cards *)

(** [int(time_diff.total_seconds())], the instants in microseconds:
    [int] cuts towards zero. *)
Definition seconds_ago (now last_seen : Z) : Z :=
  Z.quot (now - last_seen) 1000000.

(** The number and the unit of the line "Updated: ... ago"; [//] rounds
    down. *)
Definition time_ago (seconds_ago : Z) : Z * string :=
  if seconds_ago <? 60 then (seconds_ago, "s")
  else if seconds_ago <? 3600 then (seconds_ago / 60, "m")
  else (seconds_ago / 3600, "h").

Definition str (n : Z) : string := NilZero.string_of_int (Z.to_int n).

Definition time_str (seconds_ago : Z) : string :=
  (str (fst (time_ago seconds_ago)) ++ snd (time_ago seconds_ago) ++ " ago")%string.

(** The seconds in a unit of [time_ago]. *)
Definition unit_seconds (u : string) : Z :=
  if String.eqb u "s" then 1 else if String.eqb u "m" then 60 else 3600.

(** *** The gauge *)

(** The value the gauge shows where the frame of the range query is not
    empty: the first row of [latest_devices] for the device of the
    filter, the first row of all without filter; [None] when no gauge is
    drawn.  The source reads [iloc[0]] only where [latest_devices] is
    not empty. *)
Definition gauge_tds (latest_devices : list Storage.latest_row)
    (device_filter : option string) : option float :=
  let first_tds (rows : list Storage.latest_row) :=
    match rows with
    | l :: _ => Some (Storage.latest_tds l)
    | [] => None
    end in
  match device_filter with
  | Some d =>
      if String.eqb d "" then first_tds latest_devices
      else
        first_tds
          (filter (fun l => String.eqb (Storage.latest_device_id l) d)
             latest_devices)
  | None => first_tds latest_devices
  end.

(** *** The table of recent readings *)

(** [df.tail(n)] *)
Definition tail {A} (n : nat) (df : list A) : list A :=
  skipn (length df - n) df.

Record display_row := mk_display_row {
  display_timestamp : string;
  display_device_id : string;
  display_device_ip : option string;
  display_tds : float;
  display_voltage : option float;
  display_status : string
}.

(** The readings the table shows, in the order it shows them:
    [tail(50)], then [iloc[::-1]]. *)
Definition recent_rows (df : list Storage.reading) : list Storage.reading :=
  rev (tail 50 df).

Section Display.
(** [strftime('%Y-%m-%d %H:%M:%S')] of an instant and [round(2)]. *)
Variable strftime : Z -> string.
Variable round2 : float -> float.

Definition display_of (thresholds : thresholds) (r : Storage.reading)
  : display_row :=
  let tds := round2 (Storage.tds r) in
  mk_display_row (strftime (Storage.timestamp r)) (Storage.device_id r)
    (Storage.device_ip r) tds (Storage.voltage r)
    (status (get_water_quality_status tds thresholds)).

Definition display_df (df : list Storage.reading) (thresholds : thresholds)
  : list display_row :=
  map (display_of thresholds) (tail 50 df).

(** What [st.dataframe] is given. *)
Definition recent_readings (df : list Storage.reading) (thresholds : thresholds)
  : list display_row :=
  rev (display_df df thresholds).
End Display.

(** *** The chart *)

(** One line of the chart: a name, and the points. *)
Record trace := mk_trace {
  trace_name : string;
  trace_x : list Z;
  trace_y : list float
}.

(** [Series.unique()]: the values in the order in which they first
    appear. *)
Fixpoint unique (l : list string) : list string :=
  match l with
  | [] => []
  | x :: l' => x :: filter (fun y => negb (String.eqb y x)) (unique l')
  end.

Definition device_trace (df : list Storage.reading) (device : string) : trace :=
  let device_df := filter (fun r => String.eqb (Storage.device_id r) device) df in
  mk_trace device (map Storage.timestamp device_df) (map Storage.tds device_df).

(** The traces [create_tds_chart] adds to the figure, in order. *)
Definition create_tds_chart (df : list Storage.reading) (device_id : option string)
  : list trace :=
  let all_devices := map (device_trace df) (unique (map Storage.device_id df)) in
  match device_id with
  | Some d => if String.eqb d "" then all_devices else [device_trace df d]
  | None => all_devices
  end.

(** How bad a status is. *)
Definition severity (s : string) : Z :=
  if String.eqb s "Good" then 0 else if String.eqb s "Moderate" then 1 else 2.

(** The place of a number on the line, for the comparison of the
    specification: the class, then exponent and mantissa, turned round
    for the negative numbers. *)
Definition sf_rank (a : spec_float) : Z * Z * Z :=
  match a with
  | S754_infinity true => (0, 0, 0)
  | S754_finite true m e => (1, - e, - Z.pos m)
  | S754_zero _ => (2, 0, 0)
  | S754_finite false m e => (3, e, Z.pos m)
  | S754_infinity false => (4, 0, 0)
  | S754_nan => (5, 0, 0)
  end.

Definition rank_lt (p q : Z * Z * Z) : Prop :=
  fst (fst p) < fst (fst q) \/
  (fst (fst p) = fst (fst q) /\
   (snd (fst p) < snd (fst q) \/ (snd (fst p) = snd (fst q) /\ snd p < snd q))).

(** The two thresholds as sign, mantissa and exponent. *)
Definition sf300 : spec_float := S754_finite false 5277655813324800 (-44).
Definition sf600 : spec_float := S754_finite false 5277655813324800 (-43).

End Dashboard.
(** ** Facts on [sort_by] *)

Section SortByFacts.
Context {A : Type}.
Variable le : A -> A -> bool.

Lemma insert_by_perm x l : Permutation (x :: l) (insert_by le x l).
Proof.
  induction l as [|y l IH]; simpl; [reflexivity|].
  destruct (le x y); [reflexivity|].
  rewrite perm_swap. now constructor.
Qed.

Lemma sort_by_perm l : Permutation l (sort_by le l).
Proof.
  induction l as [|x l IH]; simpl; [constructor|].
  rewrite <- insert_by_perm. now constructor.
Qed.

Lemma sort_by_length l : length (sort_by le l) = length l.
Proof. symmetry. apply Permutation_length, sort_by_perm. Qed.

Lemma sort_by_In x l : In x (sort_by le l) <-> In x l.
Proof.
  split; apply Permutation_in; [symmetry|]; apply sort_by_perm.
Qed.

Lemma sort_by_Forall (P : A -> Prop) l : Forall P l -> Forall P (sort_by le l).
Proof.
  rewrite !Forall_forall. intros H x Hx. now apply H, sort_by_In.
Qed.

Lemma sort_by_nil l : sort_by le l = [] -> l = [].
Proof.
  intros H. apply Permutation_nil. rewrite <- H. symmetry. apply sort_by_perm.
Qed.

(** The result is ordered, for a total and transitive [le]. *)
Section Ordered.
Hypothesis le_total : forall x y, le x y = true \/ le y x = true.
Hypothesis le_trans : forall x y z, le x y = true -> le y z = true -> le x z = true.

Lemma insert_by_sorted x l :
  StronglySorted (fun a b => le a b = true) l ->
  StronglySorted (fun a b => le a b = true) (insert_by le x l).
Proof.
  induction 1 as [|y l Hs IH Hy]; simpl.
  - repeat constructor.
  - destruct (le x y) eqn:E.
    + constructor; [now constructor|]. constructor; [exact E|].
      rewrite Forall_forall in *. eauto.
    + constructor; [exact IH|].
      apply (Permutation_Forall (insert_by_perm x l)).
      constructor; [|exact Hy].
      destruct (le_total x y); congruence.
Qed.

Lemma sort_by_sorted l : StronglySorted (fun a b => le a b = true) (sort_by le l).
Proof.
  induction l; simpl; [constructor|]. now apply insert_by_sorted.
Qed.
End Ordered.

(** Stability: a relation [R] that held between every element and the
    ones after it still holds after sorting, as soon as an element only
    moves behind elements it is related to.  *)
Section Stable.
Variable R : A -> A -> Prop.
Hypothesis R_passed : forall x y, le x y = false -> R y x.

Lemma insert_by_pairs x l :
  Forall (R x) l -> ForallOrdPairs R l -> ForallOrdPairs R (insert_by le x l).
Proof.
  intros Hx Hl. induction Hl as [|y l Hy Hl IH]; simpl.
  - repeat constructor.
  - destruct (le x y) eqn:E.
    + constructor; [exact Hx|]. now constructor.
    + inversion Hx; subst. constructor; [|now apply IH].
      apply (Permutation_Forall (insert_by_perm x l)).
      constructor; [now apply R_passed|exact Hy].
Qed.

Lemma sort_by_pairs l : ForallOrdPairs R l -> ForallOrdPairs R (sort_by le l).
Proof.
  induction 1 as [|x l Hx Hl IH]; simpl; [constructor|].
  apply insert_by_pairs; [|exact IH]. now apply sort_by_Forall.
Qed.
End Stable.
End SortByFacts.

(** Relations between ordered pairs survive taking a part of the list. *)

Lemma ForallOrdPairs_filter {A} (R : A -> A -> Prop) (f : A -> bool) l :
  ForallOrdPairs R l -> ForallOrdPairs R (filter f l).
Proof.
  induction 1 as [|x l Hx Hl IH]; simpl; [constructor|].
  destruct (f x); [|exact IH].
  constructor; [|exact IH].
  rewrite Forall_forall in *. intros y Hy. apply Hx.
  now apply filter_In in Hy.
Qed.

Lemma firstn_incl {A} n (l : list A) x : In x (firstn n l) -> In x l.
Proof.
  intros H. rewrite <- (firstn_skipn n l). apply in_or_app. now left.
Qed.

Lemma ForallOrdPairs_firstn {A} (R : A -> A -> Prop) n l :
  ForallOrdPairs R l -> ForallOrdPairs R (firstn n l).
Proof.
  intros H. revert n. induction H as [|x l Hx Hl IH]; intros [|n]; simpl;
    try constructor; [|apply IH].
  rewrite Forall_forall in *. intros y Hy. apply Hx.
  now apply firstn_incl in Hy.
Qed.

Lemma StronglySorted_pairs {A} (R : A -> A -> Prop) l :
  StronglySorted R l <-> ForallOrdPairs R l.
Proof.
  split; induction 1; constructor; auto.
Qed.

Section Pairs.
Context {A : Type}.

Lemma ForallOrdPairs_impl (R S : A -> A -> Prop) l :
  (forall a b, R a b -> S a b) -> ForallOrdPairs R l -> ForallOrdPairs S l.
Proof.
  intros H. induction 1 as [|x l Hx Hl IH]; constructor; auto.
  eapply Forall_impl; [|exact Hx]. auto.
Qed.

Lemma ForallOrdPairs_and (R S : A -> A -> Prop) l :
  ForallOrdPairs R l -> ForallOrdPairs S l ->
  ForallOrdPairs (fun a b => R a b /\ S a b) l.
Proof.
  induction 1 as [|x l Hx Hl IH]; intros HS; [constructor|].
  inversion HS; subst. constructor; auto.
  rewrite Forall_forall in *. auto.
Qed.

Lemma ForallOrdPairs_snoc (R : A -> A -> Prop) l x :
  ForallOrdPairs R l -> Forall (fun a => R a x) l -> ForallOrdPairs R (l ++ [x]).
Proof.
  induction 1 as [|y l Hy Hl IH]; intros Hx; simpl.
  - repeat constructor.
  - inversion Hx; subst. constructor; [|auto].
    apply Forall_app. split; [exact Hy|]. now constructor.
Qed.
End Pairs.

Lemma NoDup_map_filter {A B} (f : A -> B) (p : A -> bool) l :
  NoDup (map f l) -> NoDup (map f (filter p l)).
Proof.
  induction l as [|a l IH]; simpl; intros H; [constructor|].
  inversion H; subst. destruct (p a); simpl; [|auto].
  constructor; [|auto]. intros Hin. apply in_map_iff in Hin as (b & Hb & Hin).
  apply filter_In in Hin as [Hin _]. apply H2. rewrite <- Hb. now apply in_map.
Qed.

Lemma NoDup_map_firstn {A B} (f : A -> B) n l :
  NoDup (map f l) -> NoDup (map f (firstn n l)).
Proof.
  revert n. induction l as [|a l IH]; intros [|n]; simpl; intros H;
    try constructor; inversion H; subst; [|auto].
  intros Hin. apply in_map_iff in Hin as (b & Hb & Hin).
  apply firstn_incl in Hin. apply H2. rewrite <- Hb. now apply in_map.
Qed.


(** ** Facts on the comparison of binary64 numbers *)

Section SpecFloatOrder.

Lemma SFcompare_antisym a b :
  SFcompare b a = option_map CompOpp (SFcompare a b).
Proof.
  destruct a as [sa|sa| |sa ma ea], b as [sb|sb| |sb mb eb]; simpl;
    try reflexivity; try (destruct sa; reflexivity);
    try (destruct sb; reflexivity);
    try (destruct sa, sb; reflexivity).
  destruct sa, sb; simpl; try reflexivity;
    rewrite (Z.compare_antisym ea eb); destruct (ea ?= eb); simpl;
    try reflexivity;
    rewrite (Pos.compare_cont_antisym ma mb Eq); reflexivity.
Qed.

Lemma SFcompare_refl a : a <> S754_nan -> SFcompare a a = Some Eq.
Proof.
  destruct a as [s|s| |s m e]; simpl; intros H; try congruence.
  - now destruct s.
  - destruct s; rewrite Z.compare_refl, Pos.compare_cont_refl; reflexivity.
Qed.

Lemma SFcompare_nan_r a : SFcompare a S754_nan = None.
Proof. now destruct a. Qed.

Lemma SFcompare_some c a :
  c <> S754_nan -> a <> S754_nan -> exists o, SFcompare c a = Some o.
Proof.
  destruct c, a; simpl; intros Hc Ha; try congruence; eauto.
Qed.

(** [c <= a] is [a < c] turned round, NaN apart. *)
Lemma SFleb_ltb c a :
  c <> S754_nan ->
  (SFleb c a = true <-> SFltb a c = false /\ SFeqb a a = true).
Proof.
  intros Hc. unfold SFleb, SFltb, SFeqb.
  rewrite (SFcompare_antisym c a).
  destruct a as [s|s| |s m e] eqn:Ea.
  4: destruct (SFcompare_some c (S754_finite s m e) Hc) as [o Ho]; [congruence|].
  1: destruct (SFcompare_some c (S754_zero s) Hc) as [o Ho]; [congruence|].
  2: destruct (SFcompare_some c (S754_infinity s) Hc) as [o Ho]; [congruence|].
  1,2,4: rewrite Ho, SFcompare_refl by congruence; destruct o; simpl; intuition congruence.
  rewrite SFcompare_nan_r. simpl. intuition congruence.
Qed.

(** Below a positive number, below the one of the same mantissa and a
    larger exponent. *)
Lemma SFltb_exponent a m e1 e2 :
  (e1 < e2)%Z ->
  SFltb a (S754_finite false m e1) = true ->
  SFltb a (S754_finite false m e2) = true.
Proof.
  intros He. unfold SFltb.
  destruct a as [s|s| |s ma ea]; simpl; try (destruct s; simpl; congruence);
    [auto|].
  destruct s; [reflexivity|].
  destruct (Z.compare_spec ea e1) as [->| |]; try congruence.
  - intros _. now rewrite (proj2 (Z.compare_lt_iff e1 e2) He).
  - intros _. assert (H' : (ea ?= e2)%Z = Lt) by (apply Z.compare_lt_iff; lia).
    now rewrite H'.
Qed.

Lemma SFeqb_sym a b : SFeqb a b = SFeqb b a.
Proof.
  unfold SFeqb. rewrite (SFcompare_antisym b a).
  now destruct (SFcompare b a) as [[]|].
Qed.

End SpecFloatOrder.

(** ** Two sorts of frames *)

Module Frames.
Import Storage.

Definition by_timestamp (a b : reading) : bool := timestamp a <=? timestamp b.
Definition before_timestamp (a b : reading) : bool := timestamp a <? timestamp b.

Lemma by_timestamp_sorted df :
  StronglySorted (fun a b => timestamp a <= timestamp b) (sort_by by_timestamp df).
Proof.
  eapply StronglySorted_pairs, ForallOrdPairs_impl;
    [|apply StronglySorted_pairs, sort_by_sorted].
  - intros a b H. now apply Z.leb_le.
  - intros x y. unfold by_timestamp. rewrite !Z.leb_le. lia.
  - intros x y z. unfold by_timestamp. rewrite !Z.leb_le. lia.
Qed.

Lemma before_timestamp_insert x l :
  StronglySorted (fun a b => timestamp a <= timestamp b) l ->
  StronglySorted (fun a b => timestamp a <= timestamp b)
    (insert_by before_timestamp x l).
Proof.
  induction 1 as [|y l Hs IH Hy]; simpl.
  - repeat constructor.
  - unfold before_timestamp at 1.
    destruct (Z.ltb_spec (timestamp x) (timestamp y)) as [Hlt|Hge].
    + constructor; [now constructor|]. constructor; [lia|].
      eapply Forall_impl; [|exact Hy]. simpl. intros a Ha. lia.
    + constructor; [exact IH|].
      apply (Permutation_Forall (insert_by_perm before_timestamp x l)).
      now constructor.
Qed.

Lemma before_timestamp_sorted df :
  StronglySorted (fun a b => timestamp a <= timestamp b)
    (sort_by before_timestamp df).
Proof.
  induction df as [|x df IH]; simpl; [constructor|].
  now apply before_timestamp_insert.
Qed.

(** A sort that keeps rows of equal timestamp in the order of the
    frame. *)
Definition stable_sort : frame_sort :=
  mk_frame_sort (sort_by by_timestamp) (sort_by_perm by_timestamp) by_timestamp_sorted.

(** A sort that turns rows of equal timestamp round. *)
Definition turning_sort : frame_sort :=
  mk_frame_sort (sort_by before_timestamp) (sort_by_perm before_timestamp)
    before_timestamp_sorted.

End Frames.

(** ** Facts on the store *)

Module StorageFacts.
Import Storage Frames.

(** *** The invariant of the table *)

Lemma well_formed_empty : well_formed empty_database.
Proof. split; constructor. Qed.

Lemma well_formed_init file :
  (forall db, file = Some db -> well_formed db) -> well_formed (init_database file).
Proof.
  destruct file as [db|]; simpl; intros H; [now apply H|apply well_formed_empty].
Qed.

Lemma append_reading_rows now now' db d x v t ip db' :
  append_reading now now' db d x v t ip = Some db' ->
  exists r,
    readings db' = readings db ++ [r] /\ last_rowid db' = last_rowid db + 1 /\
    id r = last_rowid db + 1 /\ device_id r = d /\ tds r = sqlite_real x /\
    device_ip r = ip /\
    timestamp r = match t with Some t => t | None => now end /\
    created_at r = now'.
Proof.
  unfold append_reading, bind_real.
  destruct (PrimFloat.is_nan x); [discriminate|].
  intros [= <-]. eexists. simpl. repeat split; reflexivity.
Qed.

Lemma append_reading_not_nan now now' db d x v t ip db' :
  append_reading now now' db d x v t ip = Some db' -> PrimFloat.is_nan x = false.
Proof.
  unfold append_reading, bind_real.
  destruct (PrimFloat.is_nan x); [discriminate|reflexivity].
Qed.

(** What is stored is the number given, up to the sign of a zero. *)
Lemma sqlite_real_eqb x :
  PrimFloat.is_nan x = false -> (sqlite_real x =? x)%float = true.
Proof.
  intros Hn. unfold sqlite_real. destruct (x =? 0)%float eqn:E.
  - rewrite eqb_spec in *. now rewrite SFeqb_sym.
  - unfold PrimFloat.is_nan in Hn. now apply negb_false_iff in Hn.
Qed.

Lemma sqlite_real_same x : (x =? 0)%float = false -> sqlite_real x = x.
Proof. intros E. unfold sqlite_real. now rewrite E. Qed.

Lemma well_formed_append now now' db d x v t ip db' :
  well_formed db ->
  append_reading now now' db d x v t ip = Some db' ->
  well_formed db'.
Proof.
  intros [Hord Hid] H.
  destruct (append_reading_rows _ _ _ _ _ _ _ _ _ H) as (r & Hr & Hl & Hi & _).
  split; rewrite Hr.
  - apply ForallOrdPairs_snoc; [exact Hord|].
    eapply Forall_impl; [|exact Hid]. simpl. intros a Ha. lia.
  - apply Forall_app. split.
    + eapply Forall_impl; [|exact Hid]. simpl. intros a Ha. lia.
    + constructor; [lia|constructor].
Qed.

Lemma well_formed_clear now db days :
  well_formed db -> well_formed (snd (clear_old_readings now db days)).
Proof.
  intros [Hord Hid]. split; simpl.
  - now apply ForallOrdPairs_filter.
  - rewrite Forall_forall in *. intros r Hr. apply Hid.
    now apply filter_In in Hr.
Qed.

(** *** The order of a range query *)

Lemma well_formed_ties db : well_formed db -> ForallOrdPairs tie_order (readings db).
Proof.
  intros [H _]. eapply ForallOrdPairs_impl; [|exact H].
  intros a b Hab _. exact Hab.
Qed.

Lemma sql_limit_ties n rs :
  ForallOrdPairs tie_order rs -> ForallOrdPairs tie_order (sql_limit n rs).
Proof.
  unfold sql_limit. destruct (n <? 0); [auto|apply ForallOrdPairs_firstn].
Qed.

Lemma order_by_timestamp_desc_ties rs :
  ForallOrdPairs tie_order rs -> ForallOrdPairs tie_order (order_by_timestamp_desc rs).
Proof.
  apply sort_by_pairs. intros x y H Heq.
  apply Z.leb_gt in H. lia.
Qed.

Lemma stable_sort_keeps_ties : keeps_ties stable_sort.
Proof.
  intros df. apply sort_by_pairs. intros x y H Heq.
  apply Z.leb_gt in H. lia.
Qed.

Lemma order_by_timestamp_desc_sorted rs :
  StronglySorted (fun a b => timestamp b <= timestamp a) (order_by_timestamp_desc rs).
Proof.
  unfold order_by_timestamp_desc.
  eapply StronglySorted_pairs, ForallOrdPairs_impl;
    [|apply StronglySorted_pairs, sort_by_sorted].
  - intros a b H. now apply Z.leb_le.
  - intros x y. rewrite !Z.leb_le. lia.
  - intros x y z. rewrite !Z.leb_le. lia.
Qed.

Lemma last_n_readings_eq pd now db minutes limit device_id :
  last_n_readings pd now db minutes limit device_id =
  sort_values_timestamp pd
    (sql_limit limit (order_by_timestamp_desc (matching now db minutes device_id))).
Proof.
  unfold last_n_readings, matching.
  match goal with |- context [sql_limit ?n ?l] => destruct (sql_limit n l) end;
    [|reflexivity].
  simpl. symmetry. apply Permutation_nil, sort_values_perm.
Qed.

Lemma sort_values_one pd r : sort_values_timestamp pd [r] = [r].
Proof. apply Permutation_length_1_inv, sort_values_perm. Qed.

Lemma sort_values_nil pd df : sort_values_timestamp pd df = [] -> df = [].
Proof.
  intros E. apply Permutation_nil. rewrite <- E. symmetry. apply sort_values_perm.
Qed.

(** No two rows of a range query carry one timestamp when no two
    readings of the table do. *)
Lemma last_n_readings_timestamps pd now db minutes limit device_id :
  NoDup (map timestamp (readings db)) ->
  NoDup (map timestamp (last_n_readings pd now db minutes limit device_id)).
Proof.
  intros H. rewrite last_n_readings_eq.
  eapply Permutation_NoDup; [apply Permutation_map, sort_values_perm|].
  unfold sql_limit.
  assert (Ho : NoDup (map timestamp
                        (order_by_timestamp_desc (matching now db minutes device_id)))).
  { eapply Permutation_NoDup; [apply Permutation_map, sort_by_perm|].
    now apply NoDup_map_filter. }
  destruct (limit <? 0); [exact Ho|now apply NoDup_map_firstn].
Qed.

Lemma sorted_distinct_chart_order rs :
  StronglySorted (fun a b => timestamp a <= timestamp b) rs ->
  NoDup (map timestamp rs) ->
  StronglySorted chart_order rs.
Proof.
  induction 1 as [|a rs Hs IH Ha]; simpl; intros Hn; constructor.
  - apply NoDup_cons_iff in Hn as [_ Hn]. auto.
  - apply NoDup_cons_iff in Hn as [Hn _].
    rewrite Forall_forall in *. intros b Hb. left.
    assert (timestamp a <> timestamp b).
    { intros E. apply Hn. rewrite E. now apply in_map. }
    specialize (Ha b Hb). simpl in Ha. lia.
Qed.

(** C1, as the code has it. For every table and every range query (any
    minutes window, device filter and limit) the readings
    [last_n_readings] returns are in ascending order of timestamp.  The
    order of readings with the same timestamp is the one [sort_values]
    leaves: they are in ascending order of id when the table is well
    formed and the sort keeps rows of equal timestamp in the order of
    the frame.  When no two readings of the table carry one timestamp
    the order is the stated one whatever the sort. *)
Theorem last_n_readings_chart_order pd now db minutes limit device_id :
  StronglySorted (fun a b => timestamp a <= timestamp b)
    (last_n_readings pd now db minutes limit device_id) /\
  (keeps_ties pd -> well_formed db ->
   StronglySorted chart_order (last_n_readings pd now db minutes limit device_id)) /\
  (NoDup (map timestamp (readings db)) ->
   StronglySorted chart_order (last_n_readings pd now db minutes limit device_id)).
Proof.
  assert (Hs : StronglySorted (fun a b => timestamp a <= timestamp b)
                 (last_n_readings pd now db minutes limit device_id)).
  { rewrite last_n_readings_eq. apply sort_values_sorted. }
  split; [exact Hs|]. split.
  - intros Hpd Hwf. rewrite last_n_readings_eq. apply StronglySorted_pairs.
    eapply ForallOrdPairs_impl;
      [|apply ForallOrdPairs_and;
         [apply StronglySorted_pairs, sort_values_sorted
         |apply Hpd, sql_limit_ties,
            order_by_timestamp_desc_ties, ForallOrdPairs_filter,
            well_formed_ties, Hwf]].
    intros a b [Hle Htie]. unfold chart_order, tie_order in *. lia.
  - intros Hn. apply sorted_distinct_chart_order; [exact Hs|].
    now apply last_n_readings_timestamps.
Qed.

Lemma well_formed_rows rs n :
  StronglySorted Z.lt (map id rs) -> Forall (fun r => id r <= n) rs ->
  well_formed (mk_database rs n).
Proof.
  intros Hs Hn. split; [|exact Hn]. simpl. clear Hn.
  induction rs as [|r rs IH]; [constructor|].
  simpl in Hs. apply StronglySorted_inv in Hs as [Hs Hr].
  constructor; [|auto]. rewrite Forall_map in Hr. exact Hr.
Qed.

Ltac by_rows :=
  apply well_formed_rows; simpl; repeat constructor; simpl; lia.

Lemma well_formed_tie_db : well_formed tie_db.
Proof. by_rows. Qed.

Lemma well_formed_window_db : well_formed window_db.
Proof. by_rows. Qed.

Lemma last_n_readings_chart_order_witness :
  StronglySorted chart_order
    (last_n_readings stable_sort sample_now tie_db None default_limit None).
Proof.
  apply (proj1 (proj2 (last_n_readings_chart_order stable_sort sample_now tie_db
                         None default_limit None)));
    [exact stable_sort_keeps_ties|by_rows].
Defined.

(** The readings 2 and 3 of [tie_db] carry one timestamp. *)
Example last_n_readings_tie_db :
  map id (last_n_readings stable_sort sample_now tie_db None default_limit None)
  = [2; 3; 1; 4] /\
  map id (last_n_readings turning_sort sample_now tie_db None default_limit None)
  = [3; 2; 1; 4].
Proof. split; reflexivity. Qed.

(** C1 as stated fails: nothing in the code orders equal timestamps by
    id, and a sort that turns them round returns 17 readings of one
    timestamp in descending order of id. *)
Lemma chart_claim_fails : ~ chart_claim.
Proof.
  intros H.
  specialize (H turning_sort sample_now (crowded_db 17) None default_limit None).
  assert (Hwf : well_formed (crowded_db 17)) by by_rows.
  specialize (H Hwf).
  assert (E : firstn 2
                (map (fun r => (id r, timestamp r))
                   (last_n_readings turning_sort sample_now (crowded_db 17)
                      None default_limit None))
              = [(17, sample_now); (16, sample_now)]) by reflexivity.
  destruct (last_n_readings turning_sort sample_now (crowded_db 17)
              None default_limit None) as [|a [|b l]]; try discriminate E.
  simpl in E. injection E as Ea Eta Eb Etb.
  apply StronglySorted_inv in H as [_ H]. apply Forall_inv in H.
  unfold chart_order in H. lia.
Qed.

(** *** What a range query selects *)

Lemma last_n_readings_matching_perm pd now db minutes limit device_id :
  Permutation
    (last_n_readings pd now db minutes limit device_id)
    (sql_limit limit (order_by_timestamp_desc (matching now db minutes device_id))).
Proof.
  rewrite last_n_readings_eq. symmetry. apply sort_values_perm.
Qed.

Lemma sql_limit_length n (rs : list reading) :
  0 <= n -> Z.of_nat (length (sql_limit n rs)) <= n.
Proof.
  intros Hn. unfold sql_limit. destruct (Z.ltb_spec n 0); [lia|].
  rewrite length_firstn. lia.
Qed.

Lemma sql_limit_all n (rs : list reading) :
  n < 0 \/ Z.of_nat (length rs) <= n -> sql_limit n rs = rs.
Proof.
  unfold sql_limit. intros [H|H].
  - apply Z.ltb_lt in H. now rewrite H.
  - destruct (n <? 0); [reflexivity|]. apply firstn_all2. lia.
Qed.

Lemma matching_window now db m :
  m <> 0 ->
  matching now db (Some m) None =
  filter (fun r => now - timedelta_minutes m <=? timestamp r) (readings db).
Proof.
  intros Hm. unfold matching, range_conditions, sql_where.
  apply Z.eqb_neq in Hm. rewrite Hm. simpl.
  apply filter_ext. intros r. apply andb_true_r.
Qed.

(** C9. A window of zero minutes is no window: [minutes=0] gives the
    result of [minutes=None], for every table, device filter and limit;
    and where the limit does not cut, the query without device filter
    then returns every stored reading, whatever its timestamp. *)
Theorem last_n_readings_zero_minutes pd now db limit device_id :
  last_n_readings pd now db (Some 0) limit device_id =
  last_n_readings pd now db None limit device_id /\
  (limit < 0 \/ Z.of_nat (length (readings db)) <= limit ->
   forall r, In r (last_n_readings pd now db (Some 0) limit None) <-> In r (readings db)).
Proof.
  split; [reflexivity|]. intros Hl r.
  assert (HP : Permutation (last_n_readings pd now db (Some 0) limit None) (readings db)).
  { rewrite last_n_readings_matching_perm.
    assert (Hm : matching now db (Some 0) None = readings db).
    { unfold matching, range_conditions, sql_where. cbn.
      clear Hl. induction (readings db) as [|x l IH]; [reflexivity|].
      cbn. rewrite IH. reflexivity. }
    rewrite Hm, sql_limit_all.
    - symmetry. apply sort_by_perm.
    - unfold order_by_timestamp_desc. now rewrite sort_by_length. }
  split; apply Permutation_in; [|symmetry]; exact HP.
Qed.

Lemma last_n_readings_zero_minutes_witness :
  Forall (fun r => In r (readings window_db))
    (last_n_readings stable_sort sample_now window_db (Some 0) default_limit None).
Proof.
  apply Forall_forall. intros r.
  apply (last_n_readings_zero_minutes stable_sort sample_now window_db default_limit None).
  right. vm_compute. discriminate.
Defined.

Example last_n_readings_zero_minutes_window_db :
  map id (last_n_readings stable_sort sample_now window_db (Some 0) default_limit None) = [1; 2; 3].
Proof. reflexivity. Qed.

(** C8. On an empty store, [append_reading("d1", 250.0)] succeeds, and
    the range query without filters then returns one row, whose [tds] is
    250.0 and whose [device_id] is "d1". *)
Theorem append_then_query pd now now' now'' :
  exists db r,
    append_reading now now' (init_database None) "d1" 250 None None None = Some db /\
    last_n_readings pd now'' db None default_limit None = [r] /\
    tds r = 250%float /\ device_id r = "d1".
Proof.
  exists (mk_database [mk_reading 1 "d1" None 250 None now now'] 1),
         (mk_reading 1 "d1" None 250 None now now').
  split; [reflexivity|]. split; [|split; reflexivity].
  rewrite last_n_readings_eq. apply sort_values_one.
Qed.


Lemma StronglySorted_app_cross {A} (R : A -> A -> Prop) l1 l2 :
  StronglySorted R (l1 ++ l2) -> forall a b, In a l1 -> In b l2 -> R a b.
Proof.
  induction l1 as [|x l1 IH]; simpl; intros H a b Ha Hb; [contradiction|].
  apply StronglySorted_inv in H as [Hs Hx]. destruct Ha as [<-|Ha].
  - rewrite Forall_forall in Hx. apply Hx, in_or_app. now right.
  - now apply IH.
Qed.

(** C10. When more readings match the filters than the limit allows,
    [last_n_readings] returns [limit] of the matching readings, and every
    matching reading it leaves out is no newer than any it returns. *)
Theorem last_n_readings_newest pd now db minutes limit device_id :
  0 <= limit < Z.of_nat (length (matching now db minutes device_id)) ->
  exists rest,
    Permutation (matching now db minutes device_id)
      (last_n_readings pd now db minutes limit device_id ++ rest) /\
    Z.of_nat (length (last_n_readings pd now db minutes limit device_id)) = limit /\
    forall r o,
      In r (last_n_readings pd now db minutes limit device_id) -> In o rest ->
      timestamp o <= timestamp r.
Proof.
  intros Hl.
  set (M := matching now db minutes device_id) in *.
  set (S := order_by_timestamp_desc M).
  assert (HP := last_n_readings_matching_perm pd now db minutes limit device_id).
  fold M S in HP.
  assert (Hlim : sql_limit limit S = firstn (Z.to_nat limit) S).
  { unfold sql_limit. destruct (Z.ltb_spec limit 0); [lia|reflexivity]. }
  rewrite Hlim in HP.
  exists (skipn (Z.to_nat limit) S). repeat split.
  - rewrite HP, firstn_skipn. apply sort_by_perm.
  - rewrite (Permutation_length HP), length_firstn.
    unfold S, order_by_timestamp_desc. rewrite sort_by_length. lia.
  - intros r o Hr Ho. apply (Permutation_in _ HP) in Hr.
    assert (Hs := order_by_timestamp_desc_sorted M). fold S in Hs.
    rewrite <- (firstn_skipn (Z.to_nat limit) S) in Hs.
    exact (StronglySorted_app_cross _ _ _ Hs r o Hr Ho).
Qed.

Lemma last_n_readings_newest_witness :
  0 <= 2 < Z.of_nat (length (matching sample_now tie_db None None)) /\
  exists rest,
    Permutation (matching sample_now tie_db None None)
      (last_n_readings stable_sort sample_now tie_db None 2 None ++ rest) /\
    Z.of_nat (length (last_n_readings stable_sort sample_now tie_db None 2 None)) = 2 /\
    forall r o,
      In r (last_n_readings stable_sort sample_now tie_db None 2 None) -> In o rest ->
      timestamp o <= timestamp r.
Proof.
  split; [simpl; lia|].
  apply (last_n_readings_newest stable_sort sample_now tie_db None 2 None). simpl. lia.
Defined.

Example last_n_readings_limit_tie_db :
  map id (last_n_readings stable_sort sample_now tie_db None 2 None) = [1; 4].
Proof. reflexivity. Qed.

(** C5, as the code has it. For a positive [minutes] and no device
    filter, when the limit does not cut the result, [last_n_readings]
    returns the stored readings whose timestamp is at or after
    [now - minutes], each once, and no others. *)
Theorem last_n_readings_window pd now db minutes limit :
  0 < minutes ->
  limit < 0 \/
  Z.of_nat (length (filter (fun r => now - timedelta_minutes minutes <=? timestamp r)
                      (readings db))) <= limit ->
  Permutation
    (last_n_readings pd now db (Some minutes) limit None)
    (filter (fun r => now - timedelta_minutes minutes <=? timestamp r) (readings db)) /\
  forall r,
    In r (last_n_readings pd now db (Some minutes) limit None) <->
    In r (readings db) /\ now - timedelta_minutes minutes <= timestamp r.
Proof.
  intros Hm Hl.
  assert (HP : Permutation
    (last_n_readings pd now db (Some minutes) limit None)
    (filter (fun r => now - timedelta_minutes minutes <=? timestamp r) (readings db))).
  { rewrite last_n_readings_matching_perm, matching_window by lia.
    rewrite sql_limit_all.
    - symmetry. apply sort_by_perm.
    - unfold order_by_timestamp_desc. now rewrite sort_by_length. }
  split; [exact HP|]. intros r. split.
  - intros Hr. apply (Permutation_in _ HP), filter_In in Hr.
    destruct Hr as [Hr Ht]. split; [exact Hr|now apply Z.leb_le].
  - intros [Hr Ht]. apply (Permutation_in _ (Permutation_sym HP)), filter_In.
    split; [exact Hr|now apply Z.leb_le].
Qed.

Lemma last_n_readings_window_witness :
  0 < 15 /\
  (default_limit < 0 \/
   Z.of_nat (length (filter (fun r => sample_now - timedelta_minutes 15 <=? timestamp r)
                       (readings window_db))) <= default_limit) /\
  Permutation
    (last_n_readings stable_sort sample_now window_db (Some 15) default_limit None)
    (filter (fun r => sample_now - timedelta_minutes 15 <=? timestamp r)
       (readings window_db)) /\
  forall r,
    In r (last_n_readings stable_sort sample_now window_db (Some 15) default_limit None) <->
    In r (readings window_db) /\ sample_now - timedelta_minutes 15 <= timestamp r.
Proof.
  split; [lia|]. split; [right; vm_compute; discriminate|].
  apply (last_n_readings_window stable_sort sample_now window_db 15 default_limit); [lia|].
  right. vm_compute. discriminate.
Defined.

(** Readings 60, 10 and 1 minutes old: a window of 15 minutes returns
    the last two. *)
Example last_n_readings_window_db :
  map id (last_n_readings stable_sort sample_now window_db (Some 15) default_limit None) = [2; 3].
Proof. reflexivity. Qed.

Lemma crowded_rows n r :
  In r (readings (crowded_db n)) -> timestamp r = sample_now.
Proof.
  intros H. apply in_map_iff in H as (i & <- & _). reflexivity.
Qed.

Lemma crowded_NoDup n : NoDup (readings (crowded_db n)).
Proof.
  apply (NoDup_map_inv id). unfold crowded_db. simpl. rewrite map_map. simpl.
  generalize 1%nat. induction n as [|n IH]; intros a; simpl; constructor.
  - intros H. apply in_map_iff in H as (i & Hi & Hin). apply in_seq in Hin. lia.
  - apply IH.
Qed.

(** C5 as stated fails, whatever the sort of the frame, where the limit
    cuts the result, and where a reading carries a timestamp after
    [now]. *)
Lemma window_claim_fails :
  ~ (exists pd, window_claim pd sample_now (crowded_db 1001) 15) /\
  ~ (exists pd, window_claim pd sample_now ahead_db 15).
Proof.
  split; intros [pd H].
  - assert (Hincl : incl (readings (crowded_db 1001))
                      (last_n_readings pd sample_now (crowded_db 1001) (Some 15)
                         default_limit None)).
    { intros r Hr. apply H. split; [exact Hr|].
      rewrite (crowded_rows _ _ Hr). unfold timedelta_minutes, sample_now. lia. }
    apply (NoDup_incl_length (crowded_NoDup 1001)) in Hincl.
    apply Nat2Z.inj_le in Hincl.
    assert (Hall : Z.of_nat (length (readings (crowded_db 1001))) = 1001).
    { unfold crowded_db. cbn [readings]. rewrite length_map, length_seq.
      reflexivity. }
    assert (Hcut : Z.of_nat (length (sql_limit default_limit
                      (order_by_timestamp_desc
                         (matching sample_now (crowded_db 1001) (Some 15) None))))
                   <= default_limit).
    { apply sql_limit_length. unfold default_limit. lia. }
    rewrite <- (Permutation_length
                  (last_n_readings_matching_perm pd sample_now (crowded_db 1001)
                     (Some 15) default_limit None)) in Hcut.
    unfold default_limit in *. lia.
  - pose (r := mk_reading 1 "d1" None 250 None (at_minutes 60) sample_now).
    assert (Hin : In r (last_n_readings pd sample_now ahead_db (Some 15)
                          default_limit None)).
    { rewrite last_n_readings_eq.
      apply (Permutation_in _ (sort_values_perm pd _)). left. reflexivity. }
    apply H in Hin. destruct Hin as [_ [_ Hup]].
    vm_compute in Hup. apply Hup. reflexivity.
Qed.

(** *** Retention *)

Lemma filter_split_perm {A} (f : A -> bool) l :
  Permutation l (filter f l ++ filter (fun x => negb (f x)) l).
Proof.
  induction l as [|x l IH]; simpl; [constructor|].
  destruct (f x); simpl.
  - now constructor.
  - now apply Permutation_cons_app.
Qed.

(** C6. [clear_old_readings] deletes the readings whose timestamp is
    strictly before [now - days] and no others, keeps the rest as they
    were and in their order, returns the number of readings it deleted,
    and [get_stats] then counts that many readings fewer. *)
Theorem clear_old_readings_spec now db days :
  let cutoff := now - timedelta_days days in
  let deleted := fst (clear_old_readings now db days) in
  let db' := snd (clear_old_readings now db days) in
  readings db' = filter (fun r => cutoff <=? timestamp r) (readings db) /\
  (forall r, In r (readings db') <-> In r (readings db) /\ ~ timestamp r < cutoff) /\
  (exists old,
      Permutation (readings db) (old ++ readings db') /\
      Forall (fun r => timestamp r < cutoff) old /\
      deleted = Z.of_nat (length old)) /\
  total_readings (get_stats db') = total_readings (get_stats db) - deleted.
Proof.
  intros cutoff deleted db'.
  assert (Hkept : readings db' = filter (fun r => cutoff <=? timestamp r) (readings db)).
  { apply filter_ext. intros r. fold cutoff.
    destruct (Z.ltb_spec (timestamp r) cutoff), (Z.leb_spec cutoff (timestamp r));
      simpl; (reflexivity || lia). }
  assert (HP := filter_split_perm (fun r => timestamp r <? cutoff) (readings db)).
  split; [exact Hkept|]. split; [|split].
  - intros r. rewrite Hkept, filter_In, Z.leb_le. intuition lia.
  - exists (filter (fun r => timestamp r <? cutoff) (readings db)).
    split; [exact HP|]. split; [|reflexivity].
    apply Forall_forall. intros r Hr. apply filter_In in Hr as [_ Hr].
    now apply Z.ltb_lt.
  - apply Permutation_length in HP. rewrite length_app in HP.
    unfold deleted, db', get_stats, clear_old_readings. simpl. fold cutoff. lia.
Qed.

Example clear_old_readings_window_db :
  fst (clear_old_readings sample_now window_db 1) = 0 /\
  fst (clear_old_readings (sample_now + timedelta_days 1 - timedelta_minutes 15) window_db 1) = 1.
Proof. split; reflexivity. Qed.

(** *** Export *)

Lemma last_n_readings_nil pd now db minutes limit device_id :
  matching now db minutes device_id = [] ->
  last_n_readings pd now db minutes limit device_id = [].
Proof.
  intros H. rewrite last_n_readings_eq, H. unfold sql_limit.
  destruct (limit <? 0); simpl; rewrite ?firstn_nil;
    apply Permutation_nil, sort_values_perm.
Qed.

(** C7. When no stored reading passes the filters of an export,
    [export_csv] writes no file, returns [None] and leaves store and
    disk as they were; and no call of it leaves a file of zero rows that
    was not there before, nor changes the store. *)
Theorem export_csv_nothing pd now w path device_id days :
  (matching now (store w) (days_to_minutes days) device_id = [] ->
   export_csv pd now w path device_id days = (None, w)) /\
  (forall p,
      disk (snd (export_csv pd now w path device_id days)) p = Some [] ->
      disk w p = Some []) /\
  store (snd (export_csv pd now w path device_id days)) = store w.
Proof.
  unfold export_csv. repeat split.
  - intros H. now rewrite (last_n_readings_nil _ _ _ _ _ _ H).
  - intros p.
    destruct (last_n_readings pd now (store w) (days_to_minutes days)
                export_limit device_id) as [|r df] eqn:E; simpl; [auto|].
    unfold to_csv. destruct (String.eqb p path); [discriminate|auto].
  - now destruct (negb _).
Qed.

Lemma export_csv_nothing_witness :
  export_csv stable_sort sample_now (mk_world tie_db (fun _ => None))
    default_export_path (Some "d9") None =
  (None, mk_world tie_db (fun _ => None)).
Proof.
  apply (export_csv_nothing stable_sort sample_now (mk_world tie_db (fun _ => None))
           default_export_path (Some "d9") None).
  reflexivity.
Defined.

Example export_csv_tie_db :
  fst (export_csv stable_sort sample_now (mk_world tie_db (fun _ => None))
         default_export_path (Some "d1") None) = Some default_export_path.
Proof. reflexivity. Qed.

(** *** Latest reading of each device *)

Lemma max_timestamp_fold g b r :
  fold_left max_timestamp_step g (Some b) = Some r ->
  exists pre post,
    b :: g = pre ++ r :: post /\
    Forall (fun o => timestamp o < timestamp r) pre /\
    Forall (fun o => timestamp o <= timestamp r) post.
Proof.
  revert b. induction g as [|x g IH]; simpl; intros b H.
  - injection H as <-. exists [], []. repeat split; constructor.
  - destruct (Z.ltb_spec (timestamp b) (timestamp x)) as [Hlt|Hge].
    + destruct (IH _ H) as (pre & post & E & Hpre & Hpost).
      exists (b :: pre), post. rewrite E. repeat split; [|exact Hpost].
      constructor; [|exact Hpre].
      destruct pre as [|y pre]; simpl in E; injection E as -> _; [lia|].
      inversion Hpre; subst. lia.
    + destruct (IH _ H) as (pre & post & E & Hpre & Hpost).
      destruct pre as [|y pre]; simpl in E.
      * injection E as <- <-. exists [], (x :: g).
        repeat split; [constructor|]. constructor; [lia|exact Hpost].
      * injection E as <- ->. inversion Hpre; subst.
        exists (b :: x :: pre), post. repeat split; [|exact Hpost].
        constructor; [lia|]. constructor; [lia|assumption].
Qed.

Lemma max_timestamp_row_spec g r :
  max_timestamp_row g = Some r ->
  exists pre post,
    g = pre ++ r :: post /\
    Forall (fun o => timestamp o < timestamp r) pre /\
    Forall (fun o => timestamp o <= timestamp r) post.
Proof.
  unfold max_timestamp_row. destruct g as [|b g]; simpl; [discriminate|].
  apply max_timestamp_fold.
Qed.

Lemma max_timestamp_row_some g :
  g <> [] -> exists r, max_timestamp_row g = Some r.
Proof.
  unfold max_timestamp_row. destruct g as [|b g]; [congruence|]. intros _. simpl.
  revert b. induction g as [|x g IH]; simpl; intros b; [now exists b|].
  destruct (timestamp b <? timestamp x); apply IH.
Qed.

Lemma ForallOrdPairs_app_after {A} (R : A -> A -> Prop) pre x post :
  ForallOrdPairs R (pre ++ x :: post) -> Forall (R x) post.
Proof.
  induction pre as [|y pre IH]; simpl; intros H; inversion H; subst; auto.
Qed.

Lemma group_row db d :
  well_formed db -> In d (map device_id (readings db)) ->
  exists r,
    max_timestamp_row (group_of (readings db) d) = Some r /\
    device_id r = d /\ newest_of db r.
Proof.
  intros [Hord _] Hd.
  destruct (max_timestamp_row_some (group_of (readings db) d)) as [r Hr].
  { apply in_map_iff in Hd as (x & Hx & Hin). intros E.
    assert (Hg : In x (group_of (readings db) d)).
    { apply filter_In. split; [exact Hin|]. now apply String.eqb_eq. }
    rewrite E in Hg. contradiction. }
  exists r. split; [exact Hr|].
  destruct (max_timestamp_row_spec _ _ Hr) as (pre & post & E & Hpre & Hpost).
  assert (Hin : forall o, In o (readings db) /\ device_id o = d <->
                          In o (pre ++ r :: post)).
  { intros o. rewrite <- E. unfold group_of. rewrite filter_In, String.eqb_eq.
    reflexivity. }
  assert (Hrd : In r (readings db) /\ device_id r = d).
  { apply Hin, in_or_app. right. now left. }
  destruct Hrd as [Hr1 Hr2]. split; [exact Hr2|]. split; [exact Hr1|].
  intros o Ho Hod. rewrite Hr2 in Hod.
  assert (Hafter : Forall (fun o => id r < id o) post).
  { apply (ForallOrdPairs_app_after (fun a b => id a < id b) pre r post).
    rewrite <- E. now apply ForallOrdPairs_filter. }
  rewrite Forall_forall in Hpre, Hpost, Hafter.
  assert (Hcase := proj1 (Hin o) (conj Ho Hod)).
  apply in_app_or in Hcase as [Hp|[<-|Hp]].
  - left. now apply Hpre.
  - right. split; lia.
  - specialize (Hpost _ Hp). specialize (Hafter _ Hp). lia.
Qed.

Lemma per_group_rows db ds :
  well_formed db ->
  (forall d, In d ds -> In d (map device_id (readings db))) ->
  let per_group :=
    flat_map
      (fun d => match max_timestamp_row (group_of (readings db) d) with
                | Some r => [latest_of r]
                | None => []
                end) ds in
  map latest_device_id per_group = ds /\
  forall l, In l per_group -> exists r, l = latest_of r /\ newest_of db r.
Proof.
  intros Hwf. induction ds as [|d ds IH]; simpl; intros Hds.
  - split; [reflexivity|contradiction].
  - destruct (group_row db d Hwf (Hds d (or_introl eq_refl))) as (r & Hr & Hd & Hn).
    destruct IH as [IH1 IH2]; [auto|].
    rewrite Hr. simpl. split.
    + now rewrite IH1, Hd.
    + intros l [<-|Hl]; [now exists r|now apply IH2].
Qed.

Lemma device_ids_spec rs :
  NoDup (device_ids rs) /\ forall d, In d (device_ids rs) <-> In d (map device_id rs).
Proof.
  unfold device_ids. split.
  - eapply Permutation_NoDup; [apply sort_by_perm|apply NoDup_nodup].
  - intros d. now rewrite sort_by_In, nodup_In.
Qed.

(** C2, as the code has it. For a well-formed table,
    [get_latest_by_device] returns one row for each device that has a
    reading; the row carries the values of a reading of the device with
    the largest timestamp, the one of lowest id when several readings
    carry it; and the rows are in descending order of that timestamp. *)
Theorem get_latest_by_device_spec db :
  well_formed db ->
  NoDup (map latest_device_id (get_latest_by_device db)) /\
  (forall d, In d (map latest_device_id (get_latest_by_device db)) <->
             In d (map device_id (readings db))) /\
  (forall l, In l (get_latest_by_device db) ->
     exists r,
       In r (readings db) /\ l = latest_of r /\
       forall o, In o (readings db) -> device_id o = device_id r ->
         timestamp o < timestamp r \/ (timestamp o = timestamp r /\ id r <= id o)) /\
  StronglySorted (fun a b => last_seen b <= last_seen a) (get_latest_by_device db).
Proof.
  intros Hwf. unfold get_latest_by_device, order_by_last_seen_desc.
  destruct (device_ids_spec (readings db)) as [Hnd Hin].
  destruct (per_group_rows db (device_ids (readings db)) Hwf) as [Hmap Hrows].
  { intros d. apply Hin. }
  match goal with |- context [sort_by ?le ?l] =>
    assert (HP : Permutation l (sort_by le l)) by apply sort_by_perm end.
  split; [|split; [|split]].
  - eapply Permutation_NoDup; [apply Permutation_map, HP|]. now rewrite Hmap.
  - intros d. split; intros Hd.
    + apply Hin. rewrite <- Hmap.
      eapply Permutation_in; [symmetry; apply Permutation_map, HP|exact Hd].
    + apply Hin in Hd. rewrite <- Hmap in Hd.
      eapply Permutation_in; [apply Permutation_map, HP|exact Hd].
  - intros l Hl. apply (Permutation_in _ (Permutation_sym HP)) in Hl.
    destruct (Hrows l Hl) as (r & -> & Hr & Hmax). now exists r.
  - eapply StronglySorted_pairs, ForallOrdPairs_impl;
      [|apply StronglySorted_pairs, sort_by_sorted].
    + intros a b H. now apply Z.leb_le.
    + intros x y. rewrite !Z.leb_le. lia.
    + intros x y z. rewrite !Z.leb_le. lia.
Qed.

Lemma get_latest_by_device_spec_witness :
  well_formed tie_db /\
  StronglySorted (fun a b => last_seen b <= last_seen a) (get_latest_by_device tie_db).
Proof.
  split; [by_rows|].
  apply (get_latest_by_device_spec tie_db). by_rows.
Defined.

Example get_latest_by_device_tie_db :
  map (fun l => (latest_device_id l, latest_device_ip l, last_seen l))
    (get_latest_by_device tie_db) =
  [("d2", None, at_minutes (-5)); ("d1", Some "10.0.0.7", at_minutes (-30))].
Proof. reflexivity. Qed.

(** C2 as stated fails on a table that holds two readings of a device
    with the same timestamp: the row returned is the one of lower id. *)
Lemma latest_claim_fails : ~ latest_claim tie_db.
Proof.
  intros H.
  destruct (H (mk_latest_row "d1" (Some "10.0.0.7") 100 (Some 3.3%float)
                 (at_minutes (-30)) (at_minutes (-30)) (at_minutes (-30))))
    as (r & Hin & Heq & Hmax).
  { right. left. reflexivity. }
  simpl in Hin. destruct Hin as [<-|[<-|[<-|[<-|[]]]]]; try discriminate Heq.
  specialize (Hmax (mk_reading 3 "d1" (Some "10.0.0.8") 200 (Some 5%float)
                      (at_minutes (-30)) (at_minutes (-29)))).
  simpl in Hmax. destruct Hmax as [Hlt|[_ Hle]]; auto; lia.
Qed.

End StorageFacts.

(** ** Further facts on the store *)

Module StoreHistory.
Import Storage Frames StorageFacts.

(** *** Rowids along a history *)

(** What every table reached from an empty file satisfies besides
    [well_formed]: rowids start at 1. *)
Lemma rowids_positive_append now now' db d x v t ip db' :
  0 <= last_rowid db ->
  Forall (fun r => 0 < id r) (readings db) ->
  append_reading now now' db d x v t ip = Some db' ->
  0 <= last_rowid db' /\ Forall (fun r => 0 < id r) (readings db').
Proof.
  intros H0 Hpos H.
  destruct (append_reading_rows _ _ _ _ _ _ _ _ _ H) as (r & Hr & Hl & Hi & _).
  split; [lia|]. rewrite Hr. apply Forall_app. split; [exact Hpos|].
  constructor; [lia|constructor].
Qed.

Lemma well_formed_NoDup db : well_formed db -> NoDup (map id (readings db)).
Proof.
  intros [H _]. induction H as [|r rs Hr Hrs IH]; simpl; constructor; auto.
  intros Hin. apply in_map_iff in Hin as (o & Ho & Hin).
  rewrite Forall_forall in Hr. specialize (Hr o Hin). lia.
Qed.

Lemma run_invariant ops db :
  well_formed db -> 0 <= last_rowid db -> Forall (fun r => 0 < id r) (readings db) ->
  well_formed (run ops db) /\ 0 <= last_rowid (run ops db) /\
  Forall (fun r => 0 < id r) (readings (run ops db)) /\
  last_rowid db <= last_rowid (run ops db).
Proof.
  revert db. induction ops as [|op ops IH]; simpl; intros db Hwf H0 Hpos.
  - refine (conj Hwf (conj H0 (conj Hpos _))). lia.
  - assert (Hstep : well_formed (apply_operation db op) /\
                    0 <= last_rowid (apply_operation db op) /\
                    Forall (fun r => 0 < id r) (readings (apply_operation db op)) /\
                    last_rowid db <= last_rowid (apply_operation db op)).
    { destruct op as [now now' d x v t ip|now days]; simpl.
      - destruct (append_reading now now' db d x v t ip) as [db'|] eqn:E.
        + destruct (rowids_positive_append _ _ _ _ _ _ _ _ _ H0 Hpos E) as [H1 H2].
          destruct (append_reading_rows _ _ _ _ _ _ _ _ _ E) as (r & _ & Hl & _).
          refine (conj (well_formed_append _ _ _ _ _ _ _ _ _ Hwf E)
                    (conj H1 (conj H2 _))). lia.
        + refine (conj Hwf (conj H0 (conj Hpos _))). lia.
      - refine (conj (well_formed_clear now db days Hwf) (conj H0 (conj _ _)));
          [|lia].
        rewrite Forall_forall in *. intros r Hr. apply Hpos.
        now apply filter_In in Hr. }
    destruct Hstep as (H1 & H2 & H3 & H4).
    destruct (IH _ H1 H2 H3) as (I1 & I2 & I3 & I4).
    refine (conj I1 (conj I2 (conj I3 _))). lia.
Qed.

(** X1. Whatever appends and prunes are run on a new database, in any
    order, the rowids of the table are positive, distinct, ascending in
    insertion order, and none is above the counter. *)
Theorem run_rowids ops :
  let db := run ops (init_database None) in
  well_formed db /\
  NoDup (map id (readings db)) /\
  Forall (fun r => 0 < id r <= last_rowid db) (readings db).
Proof.
  intros db.
  destruct (run_invariant ops (init_database None)) as (H1 & H2 & H3 & _).
  - apply well_formed_empty.
  - simpl. lia.
  - constructor.
  - split; [exact H1|]. split; [now apply well_formed_NoDup|].
    destruct H1 as [_ Hle]. fold db in Hle, H3.
    rewrite Forall_forall in *. intros r Hr. split; auto.
Qed.

(** X2. On a well-formed table a call of [append_reading] that succeeds
    keeps every row as it was and in place, and adds one row at the end:
    its id is above every id of the table, it carries the device and the
    address given, its [tds] is the number given as SQLite keeps it, so
    equal to it as a number and the same but for the sign of a zero, its
    timestamp is the one given, the clock's when none is given, and its
    [created_at] is the clock's. *)
Theorem append_reading_fresh now now' db d x v t ip db' :
  well_formed db ->
  append_reading now now' db d x v t ip = Some db' ->
  exists r,
    readings db' = readings db ++ [r] /\
    Forall (fun o => id o < id r) (readings db) /\
    device_id r = d /\ device_ip r = ip /\
    tds r = sqlite_real x /\ (tds r =? x)%float = true /\
    ((x =? 0)%float = false -> tds r = x) /\
    timestamp r = match t with Some t => t | None => now end /\
    created_at r = now'.
Proof.
  intros [_ Hle] H.
  destruct (append_reading_rows _ _ _ _ _ _ _ _ _ H)
    as (r & Hr & Hl & Hi & Hd & Hx & Hip & Ht & Hc).
  assert (Hn := append_reading_not_nan _ _ _ _ _ _ _ _ _ H).
  exists r. split; [exact Hr|]. split.
  { eapply Forall_impl; [|exact Hle]. simpl. intros o Ho. lia. }
  split; [exact Hd|]. split; [exact Hip|]. split; [exact Hx|].
  split; [rewrite Hx; now apply sqlite_real_eqb|].
  split; [intros E; rewrite Hx; now apply sqlite_real_same|].
  split; [exact Ht|exact Hc].
Qed.

Lemma append_reading_fresh_witness :
  exists r,
    readings (mk_database (readings tie_db ++
                [mk_reading 5 "d3" None 0 None sample_now sample_now]) 5)
    = readings tie_db ++ [r] /\
    Forall (fun o => id o < id r) (readings tie_db) /\
    device_id r = "d3" /\ device_ip r = None /\
    tds r = sqlite_real (-0) /\ (tds r =? -0)%float = true /\
    ((-0 =? 0)%float = false -> tds r = (-0)%float) /\
    timestamp r = sample_now /\ created_at r = sample_now.
Proof.
  apply (append_reading_fresh sample_now sample_now tie_db "d3" (-0) None None None);
    [by_rows|reflexivity].
Defined.

Example append_reading_zero :
  option_map (fun db => map tds (readings db))
    (append_reading 0 0 empty_database "d1" (-0) None None None) = Some [0%float].
Proof. reflexivity. Qed.

(** *** Retention *)

Lemma filter_filter_all {A} (f g : A -> bool) l :
  (forall a, g a = true -> f a = true) -> filter f (filter g l) = filter g l.
Proof.
  intros H. induction l as [|a l IH]; simpl; [reflexivity|].
  destruct (g a) eqn:E; simpl; [|exact IH]. rewrite (H a E). now f_equal.
Qed.

Lemma filter_filter_none {A} (f g : A -> bool) l :
  (forall a, g a = true -> f a = false) -> filter f (filter g l) = [].
Proof.
  intros H. induction l as [|a l IH]; simpl; [reflexivity|].
  destruct (g a) eqn:E; simpl; [|exact IH]. now rewrite (H a E).
Qed.

(** X3. After a prune, a prune whose cutoff is not later deletes
    nothing: [clear_old_readings] then returns 0 and leaves the table as
    the first prune left it.  So pruning twice at one clock reading is
    pruning once. *)
Theorem clear_old_readings_again now1 days1 now2 days2 db :
  now2 - timedelta_days days2 <= now1 - timedelta_days days1 ->
  clear_old_readings now2 (snd (clear_old_readings now1 db days1)) days2 =
  (0, snd (clear_old_readings now1 db days1)).
Proof.
  intros Hc. unfold clear_old_readings. simpl.
  rewrite filter_filter_none, filter_filter_all; [reflexivity| |];
    intros r Hr; apply negb_true_iff, Z.ltb_ge in Hr;
    [apply negb_true_iff|]; apply Z.ltb_ge; lia.
Qed.

Lemma clear_old_readings_again_witness :
  clear_old_readings (sample_now + timedelta_days 1 - timedelta_minutes 15)
    (snd (clear_old_readings (sample_now + timedelta_days 1 - timedelta_minutes 5)
            window_db 1)) 1
  = (0, snd (clear_old_readings (sample_now + timedelta_days 1 - timedelta_minutes 5)
               window_db 1)).
Proof.
  apply (clear_old_readings_again
           (sample_now + timedelta_days 1 - timedelta_minutes 5) 1
           (sample_now + timedelta_days 1 - timedelta_minutes 15) 1 window_db).
  vm_compute. discriminate.
Defined.

(** X4. A rowid is not given twice, also after a prune: the reading
    appended after [clear_old_readings] gets an id above every id the
    table held before the prune, deleted rows included. *)
Theorem append_after_prune_fresh now0 days now now' db d x v t ip db' :
  well_formed db ->
  append_reading now now' (snd (clear_old_readings now0 db days)) d x v t ip = Some db' ->
  exists r,
    readings db' = readings (snd (clear_old_readings now0 db days)) ++ [r] /\
    Forall (fun o => id o < id r) (readings db).
Proof.
  intros [_ Hle] H.
  destruct (append_reading_rows _ _ _ _ _ _ _ _ _ H) as (r & Hr & _ & Hi & _).
  exists r. split; [exact Hr|].
  eapply Forall_impl; [|exact Hle]. simpl in *. intros o Ho. lia.
Qed.

Lemma append_after_prune_fresh_witness :
  exists r,
    readings (mk_database [mk_reading 4 "d1" None 250 None sample_now sample_now] 4)
    = readings (snd (clear_old_readings (sample_now + timedelta_days 1) window_db 1)) ++ [r] /\
    Forall (fun o => id o < id r) (readings window_db).
Proof.
  apply (append_after_prune_fresh (sample_now + timedelta_days 1) 1 sample_now sample_now
           window_db "d1" 250 None None None); [by_rows|reflexivity].
Defined.

End StoreHistory.

Module StoreQueries.
Import Storage Frames StorageFacts.

(** *** What a range query returns *)

Lemma sql_limit_incl n rs r : In r (sql_limit n rs) -> In r rs.
Proof.
  unfold sql_limit. destruct (n <? 0); [auto|apply firstn_incl].
Qed.

Lemma last_n_readings_In_matching pd now db minutes limit device_id r :
  In r (last_n_readings pd now db minutes limit device_id) ->
  In r (matching now db minutes device_id).
Proof.
  intros H. apply (Permutation_in _ (last_n_readings_matching_perm _ _ _ _ _ _)) in H.
  apply sql_limit_incl in H. now apply sort_by_In in H.
Qed.

Lemma matching_spec now db minutes device_id r :
  In r (matching now db minutes device_id) <->
  In r (readings db) /\
  match minutes with
  | Some m => m <> 0 -> now - timedelta_minutes m <= timestamp r
  | None => True
  end /\
  match device_id with
  | Some d => d <> "" -> Storage.device_id r = d
  | None => True
  end.
Proof.
  unfold matching, sql_where, range_conditions. rewrite filter_In, forallb_app.
  rewrite andb_true_iff.
  assert (Ht : forallb (fun c : reading -> bool => c r)
                 match minutes with
                 | Some m => if m =? 0 then []
                             else [fun r => now - timedelta_minutes m <=? timestamp r]
                 | None => []
                 end = true <->
               match minutes with
               | Some m => m <> 0 -> now - timedelta_minutes m <= timestamp r
               | None => True
               end).
  { destruct minutes as [m|]; [|simpl; tauto].
    destruct (Z.eqb_spec m 0) as [->|Hm]; simpl; [tauto|].
    rewrite andb_true_r, Z.leb_le. tauto. }
  assert (Hd : forallb (fun c : reading -> bool => c r)
                 match device_id with
                 | Some d => if String.eqb d "" then []
                             else [fun r => String.eqb (Storage.device_id r) d]
                 | None => []
                 end = true <->
               match device_id with
               | Some d => d <> "" -> Storage.device_id r = d
               | None => True
               end).
  { destruct device_id as [d|]; [|simpl; tauto].
    destruct (String.eqb_spec d "") as [->|Hd]; simpl; [tauto|].
    rewrite andb_true_r, String.eqb_eq. tauto. }
  rewrite Ht, Hd. tauto.
Qed.

(** X5. Whatever the limit, every row [last_n_readings] returns is a
    stored reading that passes the filters in force: its timestamp is at
    or after [now - minutes] when [minutes] is given and not 0, and its
    device is [device_id] when that is given and not empty. *)
Theorem last_n_readings_sound pd now db minutes limit device_id :
  Forall
    (fun r =>
       In r (readings db) /\
       match minutes with
       | Some m => m <> 0 -> now - timedelta_minutes m <= timestamp r
       | None => True
       end /\
       match device_id with
       | Some d => d <> "" -> Storage.device_id r = d
       | None => True
       end)
    (last_n_readings pd now db minutes limit device_id).
Proof.
  apply Forall_forall. intros r Hr.
  now apply matching_spec, last_n_readings_In_matching with (pd := pd) (limit := limit).
Qed.

(** X6. A limit that is not negative bounds the result:
    [last_n_readings] returns at most [limit] rows, none for a limit of
    0. *)
Theorem last_n_readings_at_most pd now db minutes limit device_id :
  0 <= limit ->
  Z.of_nat (length (last_n_readings pd now db minutes limit device_id)) <= limit.
Proof.
  intros Hl.
  rewrite (Permutation_length (last_n_readings_matching_perm _ _ _ _ _ _)).
  now apply sql_limit_length.
Qed.

Lemma last_n_readings_at_most_witness :
  Z.of_nat (length (last_n_readings stable_sort sample_now tie_db None 3 None)) <= 3.
Proof.
  apply (last_n_readings_at_most stable_sort sample_now tie_db None 3 None). lia.
Defined.

(** X7. On a well-formed table [last_n_readings] returns no reading
    twice: the ids of the rows of the result are distinct. *)
Theorem last_n_readings_NoDup pd now db minutes limit device_id :
  well_formed db ->
  NoDup (map id (last_n_readings pd now db minutes limit device_id)).
Proof.
  intros Hwf.
  eapply Permutation_NoDup;
    [apply Permutation_map, Permutation_sym, last_n_readings_matching_perm|].
  assert (Hs : NoDup (map id (order_by_timestamp_desc
                                (matching now db minutes device_id)))).
  { eapply Permutation_NoDup; [apply Permutation_map, sort_by_perm|].
    apply NoDup_map_filter, StoreHistory.well_formed_NoDup, Hwf. }
  unfold sql_limit. destruct (limit <? 0); [exact Hs|].
  now apply NoDup_map_firstn.
Qed.

Lemma last_n_readings_NoDup_witness :
  NoDup (map id (last_n_readings stable_sort sample_now tie_db (Some 25) 3 None)).
Proof.
  apply (last_n_readings_NoDup stable_sort sample_now tie_db (Some 25) 3 None). by_rows.
Defined.

(** X8. What was appended is read back: after a call of
    [append_reading] that succeeds, a range query without filters, and
    with a limit that does not cut, returns the new reading together with
    every reading the table held; the new reading has the device given
    and, as [tds], the number given as SQLite keeps it, equal to it as a
    number. *)
Theorem append_then_read pd now now' db d x v t ip db' now'' limit :
  append_reading now now' db d x v t ip = Some db' ->
  limit < 0 \/ Z.of_nat (length (readings db)) < limit ->
  exists r,
    device_id r = d /\ tds r = sqlite_real x /\ (tds r =? x)%float = true /\
    Permutation (last_n_readings pd now'' db' None limit None) (r :: readings db).
Proof.
  intros H Hl.
  destruct (append_reading_rows _ _ _ _ _ _ _ _ _ H) as (r & Hr & _ & _ & Hd & Hx & _).
  assert (Hn := append_reading_not_nan _ _ _ _ _ _ _ _ _ H).
  exists r. split; [exact Hd|]. split; [exact Hx|].
  split; [rewrite Hx; now apply sqlite_real_eqb|].
  rewrite last_n_readings_matching_perm.
  assert (Hm : matching now'' db' None None = readings db').
  { unfold matching, range_conditions, sql_where. cbn.
    clear. induction (readings db') as [|a l IH]; [reflexivity|].
    cbn. now rewrite IH. }
  rewrite Hm, sql_limit_all.
  - unfold order_by_timestamp_desc.
    eapply Permutation_trans; [apply Permutation_sym, sort_by_perm|].
    rewrite Hr. apply Permutation_sym, Permutation_cons_append.
  - unfold order_by_timestamp_desc. rewrite sort_by_length, Hr, length_app.
    simpl. lia.
Qed.

Lemma append_then_read_witness :
  exists r,
    device_id r = "d3" /\ tds r = sqlite_real 250 /\ (tds r =? 250)%float = true /\
    Permutation
      (last_n_readings stable_sort sample_now
         (mk_database (readings tie_db ++
            [mk_reading 5 "d3" None 250 None sample_now sample_now]) 5)
         None default_limit None)
      (r :: readings tie_db).
Proof.
  apply (append_then_read stable_sort sample_now sample_now tie_db "d3" 250
           None None None _ sample_now default_limit); [reflexivity|].
  right. vm_compute. reflexivity.
Defined.

End StoreQueries.

Module StoreSummaries.
Import Storage Frames StorageFacts.

(** *** Statistics *)

Lemma fold_min_spec l a :
  (fold_left Z.min l a = a \/ In (fold_left Z.min l a) l) /\
  fold_left Z.min l a <= a /\ Forall (fun t => fold_left Z.min l a <= t) l.
Proof.
  revert a. induction l as [|x l IH]; simpl; intros a.
  - split; [now left|]. split; [lia|constructor].
  - destruct (IH (Z.min a x)) as (Hin & Hle & Hall).
    split; [|split].
    + destruct Hin as [Hin|Hin]; [|now right; right].
      rewrite Hin. destruct (Z.min_spec a x) as [[_ ->]|[_ ->]]; auto.
    + lia.
    + constructor; [lia|exact Hall].
Qed.

Lemma fold_max_spec l a :
  (fold_left Z.max l a = a \/ In (fold_left Z.max l a) l) /\
  a <= fold_left Z.max l a /\ Forall (fun t => t <= fold_left Z.max l a) l.
Proof.
  revert a. induction l as [|x l IH]; simpl; intros a.
  - split; [now left|]. split; [lia|constructor].
  - destruct (IH (Z.max a x)) as (Hin & Hle & Hall).
    split; [|split].
    + destruct Hin as [Hin|Hin]; [|now right; right].
      rewrite Hin. destruct (Z.max_spec a x) as [[_ ->]|[_ ->]]; auto.
    + lia.
    + constructor; [lia|exact Hall].
Qed.

Lemma sql_min_spec ts :
  match sql_min ts with
  | Some lo => In lo ts /\ Forall (fun t => lo <= t) ts
  | None => ts = []
  end.
Proof.
  destruct ts as [|a l]; simpl; [reflexivity|].
  destruct (fold_min_spec l a) as (Hin & Hle & Hall).
  split; [|now constructor].
  destruct Hin as [Hin|Hin]; [left; now rewrite Hin|now right].
Qed.

Lemma sql_max_spec ts :
  match sql_max ts with
  | Some hi => In hi ts /\ Forall (fun t => t <= hi) ts
  | None => ts = []
  end.
Proof.
  destruct ts as [|a l]; simpl; [reflexivity|].
  destruct (fold_max_spec l a) as (Hin & Hle & Hall).
  split; [|now constructor].
  destruct Hin as [Hin|Hin]; [left; now rewrite Hin|now right].
Qed.

(** X9. The range [get_stats] reports is the range of the table: on an
    empty table [earliest] and [latest] are both [None]; otherwise they
    are timestamps of stored readings and every stored timestamp lies
    between them; and [total_readings] is the number of rows. *)
Theorem get_stats_range db :
  total_readings (get_stats db) = Z.of_nat (length (readings db)) /\
  match earliest (get_stats db), latest (get_stats db) with
  | Some lo, Some hi =>
      In lo (map timestamp (readings db)) /\
      In hi (map timestamp (readings db)) /\
      Forall (fun r => lo <= timestamp r <= hi) (readings db)
  | None, None => readings db = []
  | _, _ => False
  end.
Proof.
  split; [reflexivity|]. unfold get_stats. simpl.
  assert (Hmin := sql_min_spec (map timestamp (readings db))).
  assert (Hmax := sql_max_spec (map timestamp (readings db))).
  destruct (sql_min (map timestamp (readings db))) as [lo|],
           (sql_max (map timestamp (readings db))) as [hi|].
  - destruct Hmin as [Hlo Hmin], Hmax as [Hhi Hmax].
    split; [exact Hlo|]. split; [exact Hhi|].
    rewrite Forall_map in Hmin, Hmax. rewrite Forall_forall in *.
    intros r Hr. split; [now apply Hmin|now apply Hmax].
  - destruct Hmin as [Hlo _]. rewrite Hmax in Hlo. contradiction.
  - destruct Hmax as [Hhi _]. rewrite Hmin in Hhi. contradiction.
  - now apply map_eq_nil in Hmin.
Qed.

(** *** The device list *)

Lemma group_of_In rs d r :
  In r (group_of rs d) <-> In r rs /\ device_id r = d.
Proof. unfold group_of. now rewrite filter_In, String.eqb_eq. Qed.

Lemma group_of_nonempty rs d :
  In d (map device_id rs) -> group_of rs d <> [].
Proof.
  intros Hd E. apply in_map_iff in Hd as (r & Hr & Hin).
  assert (H : In r (group_of rs d)) by now apply group_of_In.
  rewrite E in H. contradiction.
Qed.

(** The running maximum and the row [MAX] holds go together. *)
Lemma max_fold_timestamp g b :
  exists r,
    fold_left max_timestamp_step g (Some b) = Some r /\
    fold_left Z.max (map timestamp g) (timestamp b) = timestamp r.
Proof.
  revert b. induction g as [|x g IH]; simpl; intros b; [now exists b|].
  destruct (Z.ltb_spec (timestamp b) (timestamp x)) as [H|H].
  - rewrite Z.max_r by lia. apply IH.
  - rewrite Z.max_l by lia. apply IH.
Qed.

Lemma sql_max_row g :
  sql_max (map timestamp g) = option_map timestamp (max_timestamp_row g).
Proof.
  unfold max_timestamp_row. destruct g as [|b g]; simpl; [reflexivity|].
  destruct (max_fold_timestamp g b) as (r & -> & ->). reflexivity.
Qed.

Lemma sort_by_map {A B} (f : A -> B) (le : A -> A -> bool) (le' : B -> B -> bool) l :
  (forall a b, le' (f a) (f b) = le a b) ->
  sort_by le' (map f l) = map f (sort_by le l).
Proof.
  intros H. induction l as [|a l IH]; simpl; [reflexivity|]. rewrite IH.
  generalize (sort_by le l). clear IH. intros s.
  induction s as [|b s IHs]; simpl; [reflexivity|].
  rewrite H. destruct (le a b); simpl; [reflexivity|]. now rewrite IHs.
Qed.

Lemma NoDup_map_fst {A B} (l : list (A * B)) : NoDup (map fst l) -> NoDup l.
Proof.
  induction l as [|a l IH]; simpl; intros H; [constructor|].
  inversion H; subst. constructor; [|auto].
  intros Hin. apply H2. now apply in_map.
Qed.

Lemma device_rows rs ds :
  (forall d, In d ds -> In d (map device_id rs)) ->
  flat_map
    (fun d => match sql_max (map timestamp (group_of rs d)) with
              | Some t => [(d, t)]
              | None => []
              end) ds =
  map (fun l => (latest_device_id l, last_seen l))
    (flat_map
       (fun d => match max_timestamp_row (group_of rs d) with
                 | Some r => [latest_of r]
                 | None => []
                 end) ds) /\
  map fst
    (flat_map
       (fun d => match sql_max (map timestamp (group_of rs d)) with
                 | Some t => [(d, t)]
                 | None => []
                 end) ds) = ds.
Proof.
  induction ds as [|d ds IH]; simpl; intros Hds; [split; reflexivity|].
  destruct IH as [IH1 IH2]; [auto|].
  rewrite sql_max_row.
  destruct (max_timestamp_row_some (group_of rs d)) as [r Hr].
  { apply group_of_nonempty. auto. }
  rewrite Hr. simpl.
  destruct (max_timestamp_row_spec _ _ Hr) as (pre & post & E & _).
  assert (Hd : device_id r = d).
  { apply (group_of_In rs d r). rewrite E. apply in_or_app. right. now left. }
  split; [now rewrite IH1, Hd|now rewrite IH2].
Qed.

(** X10. The device list and the latest readings agree: the rows of
    [get_device_list] are the pairs of device and [last_seen] of the rows
    of [get_latest_by_device], in the same order. *)
Theorem get_device_list_latest db :
  get_device_list db =
  map (fun l => (latest_device_id l, last_seen l)) (get_latest_by_device db).
Proof.
  unfold get_device_list, get_latest_by_device, order_by_last_seen_desc.
  destruct (device_ids_spec (readings db)) as [Hnd Hin].
  destruct (device_rows (readings db) (device_ids (readings db))) as [H1 H2].
  { intros d. apply Hin. }
  rewrite nodup_fixed_point.
  - rewrite H1. apply sort_by_map. reflexivity.
  - apply NoDup_map_fst. now rewrite H2.
Qed.

(** X11. [get_device_list] names each device that has a reading once,
    with the largest timestamp among the readings of the device, and
    lists the devices from the one seen last to the one seen longest
    ago. *)
Theorem get_device_list_spec db :
  NoDup (map fst (get_device_list db)) /\
  (forall d t,
      In (d, t) (get_device_list db) <->
      (exists r, In r (readings db) /\ device_id r = d /\ timestamp r = t) /\
      forall o, In o (readings db) -> device_id o = d -> timestamp o <= t) /\
  StronglySorted (fun a b => snd b <= snd a) (get_device_list db).
Proof.
  unfold get_device_list.
  destruct (device_ids_spec (readings db)) as [Hnd Hin].
  destruct (device_rows (readings db) (device_ids (readings db))) as [_ Hfst].
  { intros d. apply Hin. }
  set (rows := flat_map _ (device_ids (readings db))) in *.
  assert (Hrows : NoDup rows) by (apply NoDup_map_fst; now rewrite Hfst).
  rewrite nodup_fixed_point by exact Hrows.
  assert (HP := sort_by_perm (fun a b : string * Z => snd b <=? snd a) rows).
  split; [|split].
  - eapply Permutation_NoDup; [apply Permutation_map, HP|]. now rewrite Hfst.
  - intros d t. rewrite sort_by_In. unfold rows. rewrite in_flat_map. split.
    + intros (d' & Hd' & Hdt).
      assert (Hmax := sql_max_spec (map timestamp (group_of (readings db) d'))).
      destruct (sql_max (map timestamp (group_of (readings db) d'))) as [hi|];
        [|contradiction].
      destruct Hdt as [[= <- <-]|[]]. destruct Hmax as [Hhi Hall]. split.
      * apply in_map_iff in Hhi as (r & Hr & Hg). apply group_of_In in Hg.
        exists r. tauto.
      * intros o Ho Hod. rewrite Forall_map, Forall_forall in Hall.
        apply Hall. now apply group_of_In.
    + intros [(r & Hr & Hd & Ht) Hall]. exists d. split.
      * apply Hin, in_map_iff. now exists r.
      * assert (Hmax := sql_max_spec (map timestamp (group_of (readings db) d))).
        destruct (sql_max (map timestamp (group_of (readings db) d))) as [hi|].
        -- destruct Hmax as [Hhi Hmax]. left. f_equal.
           apply in_map_iff in Hhi as (o & Ho & Hg). apply group_of_In in Hg.
           rewrite Forall_map, Forall_forall in Hmax.
           assert (timestamp r <= hi) by (apply Hmax, group_of_In; tauto).
           assert (timestamp o <= t) by (apply Hall; tauto). lia.
        -- apply map_eq_nil in Hmax.
           exfalso. apply (group_of_nonempty (readings db) d); [|exact Hmax].
           apply in_map_iff. now exists r.
  - eapply StronglySorted_pairs, ForallOrdPairs_impl;
      [|apply StronglySorted_pairs, sort_by_sorted].
    + intros a b H. now apply Z.leb_le.
    + intros x y. rewrite !Z.leb_le. lia.
    + intros x y z. rewrite !Z.leb_le. lia.
Qed.

(** X12. The number of devices [get_stats] reports is the number of
    rows of [get_latest_by_device] and of [get_device_list]. *)
Theorem get_stats_devices db :
  total_devices (get_stats db) = Z.of_nat (length (get_latest_by_device db)) /\
  total_devices (get_stats db) = Z.of_nat (length (get_device_list db)).
Proof.
  destruct (device_ids_spec (readings db)) as [Hnd Hin].
  destruct (device_rows (readings db) (device_ids (readings db))) as [H1 H2].
  { intros d. apply Hin. }
  assert (Hl : length (get_device_list db) = length (get_latest_by_device db)).
  { unfold get_device_list, get_latest_by_device, order_by_last_seen_desc.
    rewrite nodup_fixed_point by (apply NoDup_map_fst; now rewrite H2).
    now rewrite !sort_by_length, H1, length_map. }
  rewrite Hl. cut (total_devices (get_stats db) =
                   Z.of_nat (length (get_latest_by_device db))); [tauto|].
  unfold get_stats, get_latest_by_device, order_by_last_seen_desc. simpl.
  rewrite sort_by_length.
  rewrite <- (length_map (fun l => (latest_device_id l, last_seen l))), <- H1.
  rewrite <- (length_map fst), H2.
  unfold device_ids. now rewrite sort_by_length.
Qed.

(** *** Export *)

(** X13. When some stored reading passes the filters of an export,
    [export_csv] returns the path and writes there the rows of the range
    query with these filters, at least one row; every other file and the
    store are as they were. *)
Theorem export_csv_writes pd now w path device_id days :
  matching now (store w) (days_to_minutes days) device_id <> [] ->
  let df := last_n_readings pd now (store w) (days_to_minutes days)
              export_limit device_id in
  fst (export_csv pd now w path device_id days) = Some path /\
  disk (snd (export_csv pd now w path device_id days)) path = Some df /\
  df <> [] /\
  (forall p, p <> path ->
     disk (snd (export_csv pd now w path device_id days)) p = disk w p) /\
  store (snd (export_csv pd now w path device_id days)) = store w.
Proof.
  intros Hm df.
  assert (Hdf : df <> []).
  { intros E. apply Hm. unfold df in E. rewrite last_n_readings_eq in E.
    apply sort_values_nil in E. unfold sql_limit in E.
    destruct (export_limit <? 0).
    - now apply sort_by_nil in E.
    - destruct (Z.to_nat export_limit) as [|n] eqn:En;
        [unfold export_limit in En; lia|].
      unfold order_by_timestamp_desc in E.
      destruct (sort_by _ (matching _ _ _ _)) as [|a l] eqn:Es; [|discriminate].
      now apply sort_by_nil in Es. }
  unfold export_csv. fold df. destruct df as [|r df'] eqn:Edf; [congruence|].
  cbn [empty negb fst snd disk store]. unfold to_csv. rewrite String.eqb_refl.
  repeat split; try congruence.
  intros p Hp. apply String.eqb_neq in Hp. now rewrite Hp.
Qed.

Lemma export_csv_writes_witness :
  fst (export_csv stable_sort sample_now (mk_world tie_db (fun _ => None))
         default_export_path (Some "d1") None) = Some default_export_path.
Proof.
  apply (export_csv_writes stable_sort sample_now (mk_world tie_db (fun _ => None))
           default_export_path (Some "d1") None).
  discriminate.
Defined.

End StoreSummaries.

(** ** Facts on the ingestion *)

Module IngestFacts.
Import Storage HttpServer.

(** C3 as stated fails on [append_reading]: it checks nothing, and a
    reading with an empty [device_id] is stored. *)
Lemma append_rejects_claim_fails : ~ append_rejects_claim.
Proof.
  intros H.
  specialize (H 0 0 empty_database 250%float None None None).
  simpl in H. discriminate H.
Qed.

(** C3, as the code has it. The check is the one of the HTTP endpoint:
    for a body without [device_id] or with an empty one, without [tds],
    or with a [tds] that [float] does not convert, [receive_tds] answers
    with an error and the store is as it was.  The answer is a 400, or
    a 500 when [float] fails with an error other than [ValueError]. *)
Theorem receive_tds_rejects float_of_string float_of_int now now' now'' db req :
  invalid_payload float_of_string float_of_int (body req) ->
  snd (receive_tds float_of_string float_of_int now now' now'' db req) = db /\
  exists code detail,
    fst (receive_tds float_of_string float_of_int now now' now'' db req) =
      HTTPException code detail /\
    (code = 400 \/
     code = 500 /\
     exists v, payload_tds (body req) = Some v /\
               py_float float_of_string float_of_int v = OtherError).
Proof.
  unfold invalid_payload, receive_tds.
  destruct (payload_device_id (body req)) as [d|].
  2: { intros _. split; [reflexivity|]. eexists _, _. split; [reflexivity|now left]. }
  destruct (String.eqb_spec d "") as [->|Hd].
  { intros _. split; [reflexivity|]. eexists _, _. split; [reflexivity|now left]. }
  destruct (payload_tds (body req)) as [v|].
  2: { intros _. split; [reflexivity|]. eexists _, _. split; [reflexivity|now left]. }
  intros [H|[H|[H|[H|(v' & Hv & Hf)]]]]; try congruence.
  - injection H as ->. split; [reflexivity|].
    eexists _, _. split; [reflexivity|now left].
  - injection Hv as <-.
    destruct (py_float float_of_string float_of_int v) as [x| |] eqn:E.
    + exfalso. now apply (Hf x).
    + destruct v; (split; [reflexivity|]);
        eexists _, _; (split; [reflexivity|now left]).
    + destruct v; (split; [reflexivity|]);
        eexists _, _; (split; [reflexivity|]); try (now left);
        right; (split; [reflexivity|]); eexists; split; (reflexivity || exact E).
Qed.

Lemma receive_tds_rejects_witness :
  snd (receive_tds sample_float_of_string sample_float_of_int 0 0 0 tie_db
         (sample_request (Some "esp32-01") (Some (JString "high")))) = tie_db.
Proof.
  apply (receive_tds_rejects sample_float_of_string sample_float_of_int 0 0 0 tie_db
           (sample_request (Some "esp32-01") (Some (JString "high")))).
  right. right. right. right. exists (JString "high").
  split; [reflexivity|]. intros x. discriminate.
Defined.

Example receive_tds_empty_device_id :
  receive_tds sample_float_of_string sample_float_of_int 0 0 0 tie_db
    (sample_request (Some "") (Some (JFloat 345.7))) =
  (HTTPException 400 "Missing device_id", tie_db).
Proof. reflexivity. Qed.

Example receive_tds_text_tds :
  receive_tds sample_float_of_string sample_float_of_int 0 0 0 tie_db
    (sample_request (Some "esp32-01") (Some (JString "high"))) =
  (HTTPException 400 "Invalid tds value (must be numeric)", tie_db).
Proof. reflexivity. Qed.

Example receive_tds_array_tds :
  receive_tds sample_float_of_string sample_float_of_int 0 0 0 tie_db
    (sample_request (Some "esp32-01") (Some (JArray [JFloat 345.7]))) =
  (HTTPException 500 "Internal server error", tie_db).
Proof. reflexivity. Qed.

Example receive_tds_stores :
  map id (readings (snd (receive_tds sample_float_of_string sample_float_of_int 0 0 0
                           tie_db
                           (sample_request (Some "esp32-01") (Some (JString "345.7"))))))
  = [1; 2; 3; 4; 5].
Proof. reflexivity. Qed.

(** The serial reader refuses a [tds] that is no number, but checks no
    [device_id]: the line [",345.7"] is stored with an empty one. *)
Example read_serial_line_text_tds :
  SerialIngest.read_serial_line SerialIngest.strip_ascii sample_float_of_string (fun _ => 0) 0 0
    empty_database "arduino-01,high" = empty_database.
Proof. reflexivity. Qed.

Example read_serial_line_empty_device_id :
  map device_id
    (readings (SerialIngest.read_serial_line SerialIngest.strip_ascii sample_float_of_string (fun _ => 0) 0 0
                 empty_database ",345.7")) = [""].
Proof. reflexivity. Qed.

(** *** The HTTP endpoint, further *)

Lemma receive_tds_float float_of_string float_of_int now now' now'' db req d v :
  payload_device_id (body req) = Some d -> d <> "" ->
  payload_tds (body req) = Some v -> v <> JNull ->
  receive_tds float_of_string float_of_int now now' now'' db req =
  match py_float float_of_string float_of_int v with
  | ValueError => (HTTPException 400 "Invalid tds value (must be numeric)", db)
  | OtherError => (HTTPException 500 "Internal server error", db)
  | FloatValue x =>
      match append_reading now now' db d x (payload_voltage (body req))
              (payload_timestamp (body req)) (Some (stored_ip req)) with
      | None => (HTTPException 500 "Internal server error", db)
      | Some db' =>
          if PrimFloat.is_finite x
          then
            (JSONResponse 200 d x
               (match payload_timestamp (body req) with
                | Some t => t
                | None => now''
                end), db')
          else (HTTPException 500 "Internal server error", db')
      end
  end.
Proof.
  intros Hd Hne Hv Hnull. unfold receive_tds. fold (stored_ip req).
  rewrite Hd, Hv. apply String.eqb_neq in Hne. rewrite Hne.
  destruct v; (reflexivity || congruence).
Qed.


Lemma json_null_dec (v : json) : v = JNull \/ v <> JNull.
Proof. destruct v; (now left) || (right; discriminate). Qed.


Example receive_tds_infinite :
  let answer :=
    receive_tds sample_float_of_string sample_float_of_int 0 0 0 tie_db
      (sample_request (Some "esp32-01") (Some (JFloat infinity))) in
  fst answer = HTTPException 500 "Internal server error" /\
  map id (readings (snd answer)) = [1; 2; 3; 4; 5].
Proof. split; reflexivity. Qed.



Lemma receive_tds_store float_of_string float_of_int now now' now'' db req :
  snd (receive_tds float_of_string float_of_int now now' now'' db req) = db \/
  exists d x,
    append_reading now now' db d x (payload_voltage (body req))
      (payload_timestamp (body req)) (Some (stored_ip req)) =
    Some (snd (receive_tds float_of_string float_of_int now now' now'' db req)).
Proof.
  destruct (payload_device_id (body req)) as [d|] eqn:Ed.
  2: { unfold receive_tds. rewrite Ed. now left. }
  destruct (String.eqb_spec d "") as [->|Hd].
  { unfold receive_tds. rewrite Ed. now left. }
  destruct (payload_tds (body req)) as [v|] eqn:Ev.
  2: { unfold receive_tds. rewrite Ed, Ev.
       apply String.eqb_neq in Hd. rewrite Hd. now left. }
  destruct (json_null_dec v) as [->|Hnull].
  { unfold receive_tds. rewrite Ed, Ev.
    apply String.eqb_neq in Hd. rewrite Hd. now left. }
  rewrite (receive_tds_float _ _ _ _ _ _ _ d v Ed Hd Ev Hnull).
  destruct (py_float float_of_string float_of_int v) as [x| |]; simpl; auto.
  destruct (append_reading now now' db d x _ _ _) as [db'|] eqn:Ea; simpl; auto.
  right. exists d, x. now destruct (PrimFloat.is_finite x).
Qed.

(** X16. [receive_tds] keeps the table well formed, whatever the
    request. *)
Theorem receive_tds_well_formed float_of_string float_of_int now now' now'' db req :
  well_formed db ->
  well_formed (snd (receive_tds float_of_string float_of_int now now' now'' db req)).
Proof.
  intros Hwf.
  destruct (receive_tds_store float_of_string float_of_int now now' now'' db req)
    as [->|(d & x & H)]; [exact Hwf|].
  exact (StorageFacts.well_formed_append _ _ _ _ _ _ _ _ _ Hwf H).
Qed.

Lemma receive_tds_well_formed_witness :
  well_formed
    (snd (receive_tds sample_float_of_string sample_float_of_int 10 20 30 tie_db
            (sample_request (Some "esp32-01") (Some (JString "345.7"))))).
Proof.
  apply (receive_tds_well_formed sample_float_of_string sample_float_of_int
           10 20 30 tie_db
           (sample_request (Some "esp32-01") (Some (JString "345.7")))).
  apply StorageFacts.well_formed_rows; simpl; repeat constructor; simpl; lia.
Defined.

End IngestFacts.

Module SerialFacts.
Import Storage SerialIngest.

(** *** Splitting a line *)

Lemma split_comma_field a : no_comma a = true -> split_comma a = [a].
Proof.
  induction a as [|c a IH]; simpl; [reflexivity|].
  destruct (Ascii.eqb c ","%char); simpl; [discriminate|].
  intros H. now rewrite (IH H).
Qed.

Lemma split_comma_app a rest :
  no_comma a = true ->
  split_comma (a ++ String ","%char rest)%string = a :: split_comma rest.
Proof.
  induction a as [|c a IH]; cbn; [reflexivity|].
  destruct (Ascii.eqb c ","%char); cbn; [discriminate|].
  intros H. now rewrite (IH H).
Qed.

(** X17. A line of four fields is read as its fields: when none of the
    four texts holds a comma, the second converts to a number, the third
    is not blank and converts to a number, and the fourth is not blank,
    [parse_serial_line] returns the first text stripped, the two
    numbers, and the instant of the fourth text stripped. *)
Theorem parse_serial_line_fields strip float_of_string instant_of_text d t v ts x y :
  no_comma d = true -> no_comma t = true ->
  no_comma v = true -> no_comma ts = true ->
  float_of_string (strip t) = Some x ->
  strip v <> "" -> float_of_string (strip v) = Some y ->
  strip ts <> "" ->
  parse_serial_line strip float_of_string instant_of_text (serial_line d t v ts) =
  Some (strip d, x, Some y, Some (instant_of_text (strip ts))).
Proof.
  intros Hd Ht Hv Hts Hx Hvne Hy Htsne.
  unfold parse_serial_line, serial_line.
  change (split_comma (d ++ "," ++ t ++ "," ++ v ++ "," ++ ts)%string)
    with (split_comma (d ++ String ","%char (t ++ String ","%char
                         (v ++ String ","%char ts)))%string).
  rewrite !split_comma_app, split_comma_field by assumption.
  cbn [length Nat.ltb Nat.leb nth]. rewrite Hx, Hy.
  apply String.eqb_neq in Hvne, Htsne. now rewrite Hvne, Htsne.
Qed.

Lemma parse_serial_line_fields_witness :
  parse_serial_line strip_ascii HttpServer.sample_float_of_string (fun _ => sample_now)
    (serial_line "arduino-01" " 345.7" "5.0 " "2025-10-30T12:34:56") =
  Some ("arduino-01", 345.7%float, Some 5%float, Some sample_now).
Proof.
  apply (parse_serial_line_fields strip_ascii HttpServer.sample_float_of_string
           (fun _ => sample_now)
           "arduino-01" " 345.7" "5.0 " "2025-10-30T12:34:56" 345.7 5);
    try reflexivity; discriminate.
Defined.

(** X18. A line without comma is refused: [parse_serial_line] returns
    [None] for it, and [read_serial_line] leaves the table as it was. *)
Theorem parse_serial_line_no_comma strip float_of_string instant_of_text line :
  no_comma line = true ->
  parse_serial_line strip float_of_string instant_of_text line = None /\
  forall now now' db,
    read_serial_line strip float_of_string instant_of_text now now' db line = db.
Proof.
  intros H.
  assert (Hp : parse_serial_line strip float_of_string instant_of_text line = None).
  { unfold parse_serial_line. now rewrite split_comma_field. }
  split; [exact Hp|]. intros now now' db. unfold read_serial_line. now rewrite Hp.
Qed.

Lemma parse_serial_line_no_comma_witness :
  parse_serial_line strip_ascii HttpServer.sample_float_of_string (fun _ => 0) "345.7" = None.
Proof.
  apply (parse_serial_line_no_comma strip_ascii HttpServer.sample_float_of_string (fun _ => 0)
           "345.7").
  reflexivity.
Defined.

(** *** The loop *)

Lemma read_serial_line_step strip float_of_string instant_of_text now now' db line :
  well_formed db ->
  well_formed (read_serial_line strip float_of_string instant_of_text now now' db line) /\
  exists new,
    readings (read_serial_line strip float_of_string instant_of_text now now' db line)
    = readings db ++ new /\
    (length new <= 1)%nat /\
    Forall (fun r => device_ip r = Some "SERIAL") new.
Proof.
  intros Hwf. unfold read_serial_line.
  destruct (parse_serial_line strip float_of_string instant_of_text line)
    as [[[[d x] v] t]|].
  2: { split; [exact Hwf|]. exists []. rewrite app_nil_r. auto. }
  destruct (append_reading now now' db d x v t (Some "SERIAL")) as [db'|] eqn:E.
  2: { split; [exact Hwf|]. exists []. rewrite app_nil_r. auto. }
  split; [exact (StorageFacts.well_formed_append _ _ _ _ _ _ _ _ _ Hwf E)|].
  destruct (StorageFacts.append_reading_rows _ _ _ _ _ _ _ _ _ E)
    as (r & Hr & _ & _ & _ & _ & Hip & _).
  exists [r]. split; [exact Hr|]. split; [simpl; lia|]. now constructor.
Qed.

(** X19. The serial loop only appends: after any lines received the
    table is well formed and consists of the rows it had, unchanged and
    in place, followed by new rows, at most one for each line, all
    marked with the address "SERIAL". *)
Theorem read_serial_loop_appends strip float_of_string instant_of_text received db :
  well_formed db ->
  well_formed (read_serial_loop strip float_of_string instant_of_text received db) /\
  exists new,
    readings (read_serial_loop strip float_of_string instant_of_text received db)
    = readings db ++ new /\
    (length new <= length received)%nat /\
    Forall (fun r => device_ip r = Some "SERIAL") new.
Proof.
  revert db. unfold read_serial_loop.
  induction received as [|[[raw now] now'] rest IH]; simpl; intros db Hwf.
  - split; [exact Hwf|]. exists []. rewrite app_nil_r. auto.
  - destruct (String.eqb (strip raw) "").
    + destruct (IH db Hwf) as (Hwf' & new & Hnew & Hlen & Hip).
      split; [exact Hwf'|]. exists new. repeat split; auto.
    + destruct (read_serial_line_step strip float_of_string instant_of_text now now'
                  db (strip raw) Hwf) as (Hwf1 & new1 & Hnew1 & Hlen1 & Hip1).
      destruct (IH _ Hwf1) as (Hwf' & new & Hnew & Hlen & Hip).
      split; [exact Hwf'|]. exists (new1 ++ new).
      rewrite Hnew, Hnew1, app_assoc, length_app, Forall_app.
      repeat split; auto. lia.
Qed.

Lemma read_serial_loop_appends_witness :
  well_formed
    (read_serial_loop strip_ascii HttpServer.sample_float_of_string (fun _ => sample_now)
       [("arduino-01,345.7", 10, 20); ("  ", 30, 40); ("no number,high", 50, 60)]
       tie_db).
Proof.
  apply (read_serial_loop_appends strip_ascii HttpServer.sample_float_of_string
           (fun _ => sample_now)
           [("arduino-01,345.7", 10, 20); ("  ", 30, 40); ("no number,high", 50, 60)]
           tie_db).
  apply StorageFacts.well_formed_rows; simpl; repeat constructor; simpl; lia.
Defined.

Example read_serial_loop_sample :
  map (fun r => (id r, device_id r))
    (readings
       (read_serial_loop strip_ascii HttpServer.sample_float_of_string (fun _ => sample_now)
          [("arduino-01,345.7", 10, 20); ("  ", 30, 40); ("no number,high", 50, 60)]
          tie_db)) =
  [(1, "d2"); (2, "d1"); (3, "d1"); (4, "d2"); (5, "arduino-01")].
Proof. reflexivity. Qed.

End SerialFacts.

(** ** Facts on the classification *)

Module DashboardFacts.
Import Dashboard.
Local Open Scope float_scope.

Lemma SFltb_300_600 a : SFltb a sf300 = true -> SFltb a sf600 = true.
Proof. apply SFltb_exponent. lia. Qed.

Lemma is_nan_spec x : PrimFloat.is_nan x = negb (SFeqb (Prim2SF x) (Prim2SF x)).
Proof. unfold PrimFloat.is_nan. now rewrite eqb_spec. Qed.

Lemma leb_300 tds :
  (300 <=? tds) = true <-> (tds <? 300) = false /\ PrimFloat.is_nan tds = false.
Proof.
  rewrite leb_spec, ltb_spec, is_nan_spec, negb_false_iff.
  apply (SFleb_ltb sf300). discriminate.
Qed.

Lemma leb_600 tds :
  (600 <=? tds) = true <-> (tds <? 600) = false /\ PrimFloat.is_nan tds = false.
Proof.
  rewrite leb_spec, ltb_spec, is_nan_spec, negb_false_iff.
  apply (SFleb_ltb sf600). discriminate.
Qed.

Lemma ltb_300_600 tds : (tds <? 300) = true -> (tds <? 600) = true.
Proof. rewrite !ltb_spec. apply SFltb_300_600. Qed.

Lemma ltb_nan tds c : PrimFloat.is_nan tds = true -> (tds <? c) = false.
Proof.
  rewrite is_nan_spec, ltb_spec, negb_true_iff. unfold SFeqb, SFltb.
  destruct (Prim2SF tds) as [s|s| |s m e] eqn:E.
  1,2,4: rewrite SFcompare_refl by discriminate; discriminate.
  reflexivity.
Qed.

(** C4. With the thresholds 300 and 600 the classification gives one of
    three answers for every binary64 value: "Good" exactly below 300,
    "Moderate" exactly from 300 on and below 600, "Poor" exactly from 600
    on (and for a NaN, which is not finite); 299.9, 300.0, 599.9 and
    600.0 fall as the boundaries say. *)
Theorem get_water_quality_status_spec (tds : float) :
  let s := status (get_water_quality_status tds default_thresholds) in
  (s = "Good"%string \/ s = "Moderate"%string \/ s = "Poor"%string) /\
  (s = "Good"%string <-> (tds <? 300) = true) /\
  (s = "Moderate"%string <-> (300 <=? tds) = true /\ (tds <? 600) = true) /\
  (s = "Poor"%string <-> (600 <=? tds) = true \/ PrimFloat.is_nan tds = true) /\
  status (get_water_quality_status 299.9 default_thresholds) = "Good"%string /\
  status (get_water_quality_status 300.0 default_thresholds) = "Moderate"%string /\
  status (get_water_quality_status 599.9 default_thresholds) = "Moderate"%string /\
  status (get_water_quality_status 600.0 default_thresholds) = "Poor"%string.
Proof.
  intros s.
  assert (H3 := leb_300 tds). assert (H6 := leb_600 tds).
  assert (H36 := ltb_300_600 tds).
  assert (Hn3 := ltb_nan tds 300). assert (Hn6 := ltb_nan tds 600).
  unfold s, status, get_water_quality_status, default_thresholds. simpl.
  destruct (tds <? 300) eqn:E3; simpl.
  - rewrite H36 in * by reflexivity.
    repeat split; auto; try discriminate; try tauto; intuition congruence.
  - destruct (tds <? 600) eqn:E6; simpl.
    + destruct (PrimFloat.is_nan tds); [specialize (Hn6 eq_refl); discriminate|].
      repeat split; auto; try discriminate; try tauto; intuition congruence.
    + destruct (PrimFloat.is_nan tds);
      repeat split; auto; try discriminate; try tauto; intuition congruence.
Qed.

End DashboardFacts.

(** ** Further facts on the dashboard *)

Module StatusFacts.
Import Dashboard DashboardFacts.
Local Open Scope float_scope.

(** *** The classification for any thresholds *)

Lemma SFltb_rank a b :
  a <> S754_nan -> b <> S754_nan ->
  (SFltb a b = true <-> rank_lt (sf_rank a) (sf_rank b)).
Proof.
  intros Ha Hb. unfold SFltb, rank_lt.
  destruct a as [sa|sa| |sa ma ea], b as [sb|sb| |sb mb eb]; try congruence;
    try destruct sa; try destruct sb; simpl;
    try (split; [discriminate|lia]); try (split; [lia|reflexivity]).
  all: destruct (Z.compare_spec ea eb) as [->| |]; simpl.
  all: try (split; [discriminate|lia]); try (split; [lia|reflexivity]).
  all: change (PosDef.Pos.compare_cont Eq ma mb) with (Pos.compare ma mb).
  all: destruct (Pos.compare_spec ma mb) as [->| |]; simpl.
  all: try (split; [discriminate|lia]); try (split; [lia|reflexivity]).
Qed.

Lemma SFltb_not_nan a b : SFltb a b = true -> a <> S754_nan /\ b <> S754_nan.
Proof.
  unfold SFltb. destruct a, b; simpl; try discriminate; split; discriminate.
Qed.

Lemma SFleb_not_nan a b : SFleb a b = true -> a <> S754_nan /\ b <> S754_nan.
Proof.
  unfold SFleb. destruct a, b; simpl; try discriminate; split; discriminate.
Qed.

Lemma SFeqb_refl_iff a : SFeqb a a = true <-> a <> S754_nan.
Proof.
  unfold SFeqb. split.
  - intros H ->. discriminate.
  - intros H. now rewrite SFcompare_refl.
Qed.

(** [t < g] and [g <= m] give [t < m]; [t1 <= t2] and [t2 < c] give
    [t1 < c]. *)
Lemma SFltb_leb_trans t g m :
  SFltb t g = true -> SFleb g m = true -> SFltb t m = true.
Proof.
  intros H1 H2.
  destruct (SFltb_not_nan _ _ H1) as [Ht Hg].
  destruct (SFleb_not_nan _ _ H2) as [_ Hm].
  apply (SFleb_ltb g m Hg) in H2 as [H2 _].
  apply (SFltb_rank t g Ht Hg) in H1. apply (SFltb_rank t m Ht Hm).
  assert (H3 : ~ rank_lt (sf_rank m) (sf_rank g)).
  { intros H. apply (SFltb_rank m g Hm Hg) in H. congruence. }
  unfold rank_lt in *. lia.
Qed.

Lemma SFleb_ltb_trans t1 t2 c :
  SFleb t1 t2 = true -> SFltb t2 c = true -> SFltb t1 c = true.
Proof.
  intros H1 H2.
  destruct (SFleb_not_nan _ _ H1) as [Ht1 Ht2].
  destruct (SFltb_not_nan _ _ H2) as [_ Hc].
  apply (SFleb_ltb t1 t2 Ht1) in H1 as [H1 _].
  apply (SFltb_rank t2 c Ht2 Hc) in H2. apply (SFltb_rank t1 c Ht1 Hc).
  assert (H3 : ~ rank_lt (sf_rank t2) (sf_rank t1)).
  { intros H. apply (SFltb_rank t2 t1 Ht2 Ht1) in H. congruence. }
  unfold rank_lt in *. lia.
Qed.

Lemma leb_ltb c t :
  PrimFloat.is_nan c = false ->
  ((c <=? t) = true <-> (t <? c) = false /\ PrimFloat.is_nan t = false).
Proof.
  intros Hc. rewrite leb_spec, ltb_spec, (is_nan_spec t), negb_false_iff.
  apply SFleb_ltb. apply SFeqb_refl_iff.
  rewrite is_nan_spec in Hc. now apply negb_false_iff in Hc.
Qed.

Lemma leb_not_nan a b :
  (a <=? b) = true -> PrimFloat.is_nan a = false /\ PrimFloat.is_nan b = false.
Proof.
  rewrite leb_spec, !is_nan_spec, !negb_false_iff. intros H.
  apply SFleb_not_nan in H as [Ha Hb]. split; now apply SFeqb_refl_iff.
Qed.

(** X20. For any thresholds with [good <= moderate] the three statuses
    are the three intervals: "Good" exactly below [good], "Moderate"
    exactly from [good] on and below [moderate], "Poor" exactly from
    [moderate] on, or for a NaN. *)
Theorem get_water_quality_status_intervals (tds : float) (th : thresholds) :
  (good th <=? moderate th) = true ->
  let s := status (get_water_quality_status tds th) in
  (s = "Good"%string <-> (tds <? good th) = true) /\
  (s = "Moderate"%string <->
     (good th <=? tds) = true /\ (tds <? moderate th) = true) /\
  (s = "Poor"%string <-> (moderate th <=? tds) = true \/ PrimFloat.is_nan tds = true).
Proof.
  intros Hgm s.
  destruct (leb_not_nan _ _ Hgm) as [Hg Hm].
  assert (H3 := leb_ltb (good th) tds Hg).
  assert (H6 := leb_ltb (moderate th) tds Hm).
  assert (H36 : (tds <? good th) = true -> (tds <? moderate th) = true).
  { rewrite !ltb_spec. intros H. apply (SFltb_leb_trans _ _ _ H).
    now rewrite <- leb_spec. }
  assert (Hn3 := ltb_nan tds (good th)). assert (Hn6 := ltb_nan tds (moderate th)).
  unfold s, status, get_water_quality_status.
  destruct (tds <? good th) eqn:E3; simpl.
  - rewrite H36 in * by reflexivity.
    repeat split; auto; try discriminate; try tauto; intuition congruence.
  - destruct (tds <? moderate th) eqn:E6; simpl.
    + destruct (PrimFloat.is_nan tds); [specialize (Hn6 eq_refl); discriminate|].
      repeat split; auto; try discriminate; try tauto; intuition congruence.
    + destruct (PrimFloat.is_nan tds);
      repeat split; auto; try discriminate; try tauto; intuition congruence.
Qed.

Lemma get_water_quality_status_intervals_witness :
  status (get_water_quality_status 120 (mk_thresholds 150 500)) = "Good"%string <->
  (120 <? 150) = true.
Proof.
  apply (get_water_quality_status_intervals 120 (mk_thresholds 150 500)).
  reflexivity.
Defined.

(** X21. A larger value never gets a better status, whatever the
    thresholds: for [tds1 <= tds2] the status of [tds1] is at most as bad
    as the status of [tds2]. *)
Theorem get_water_quality_status_monotone (tds1 tds2 : float) (th : thresholds) :
  (tds1 <=? tds2) = true ->
  (severity (status (get_water_quality_status tds1 th)) <=
   severity (status (get_water_quality_status tds2 th)))%Z.
Proof.
  intros Hle. rewrite leb_spec in Hle.
  assert (Hg : (tds2 <? good th) = true -> (tds1 <? good th) = true).
  { rewrite !ltb_spec. apply SFleb_ltb_trans, Hle. }
  assert (Hm : (tds2 <? moderate th) = true -> (tds1 <? moderate th) = true).
  { rewrite !ltb_spec. apply SFleb_ltb_trans, Hle. }
  unfold status, get_water_quality_status.
  destruct (tds2 <? good th); [rewrite Hg by reflexivity; simpl; reflexivity|].
  destruct (tds2 <? moderate th).
  - rewrite Hm by reflexivity. destruct (tds1 <? good th); simpl; unfold severity;
      simpl; lia.
  - destruct (tds1 <? good th), (tds1 <? moderate th); simpl; unfold severity;
      simpl; lia.
Qed.

Lemma get_water_quality_status_monotone_witness :
  (severity (status (get_water_quality_status 299.9 default_thresholds)) <=
   severity (status (get_water_quality_status 600 default_thresholds)))%Z.
Proof.
  apply (get_water_quality_status_monotone 299.9 600 default_thresholds).
  reflexivity.
Defined.

End StatusFacts.

Module CardFacts.
Import Storage Frames StorageFacts Dashboard.

(** *** The age on a device card *)

(** X22. For a reading that is not from the future the age on its card
    is the elapsed time rounded down to the unit shown: the elapsed time
    lies between the number shown and the number after it, in seconds
    below a minute, in minutes below an hour, in hours from there on. *)
Theorem time_ago_bounds now last_seen :
  last_seen <= now ->
  let n := fst (time_ago (seconds_ago now last_seen)) in
  let u := snd (time_ago (seconds_ago now last_seen)) in
  0 <= n /\
  n * unit_seconds u * 1000000 <= now - last_seen
    < (n + 1) * unit_seconds u * 1000000 /\
  (u = "s" /\ n < 60 \/ u = "m" /\ 1 <= n < 60 \/ u = "h" /\ 1 <= n).
Proof.
  intros Hle. unfold seconds_ago.
  rewrite Z.quot_div_nonneg by lia.
  set (s := (now - last_seen) / 1000000).
  assert (Hs : 1000000 * s <= now - last_seen < 1000000 * s + 1000000).
  { unfold s. assert (H := Z.div_mod (now - last_seen) 1000000).
    assert (H' := Z.mod_pos_bound (now - last_seen) 1000000). lia. }
  assert (Hs0 : 0 <= s) by lia.
  unfold time_ago.
  destruct (Z.ltb_spec s 60) as [H1|H1]; cbn [fst snd].
  - change (unit_seconds "s") with 1. split; [lia|]. split; [lia|]. left. split; [reflexivity|lia].
  - destruct (Z.ltb_spec s 3600) as [H2|H2]; cbn [fst snd].
    + change (unit_seconds "m") with 60.
      assert (H := Z.div_mod s 60). assert (H' := Z.mod_pos_bound s 60).
      split; [lia|]. split; [lia|]. right. left. split; [reflexivity|lia].
    + change (unit_seconds "h") with 3600.
      assert (H := Z.div_mod s 3600). assert (H' := Z.mod_pos_bound s 3600).
      split; [lia|]. split; [lia|]. right. right. split; [reflexivity|lia].
Qed.

Lemma time_ago_bounds_witness :
  0 <= fst (time_ago (seconds_ago sample_now (at_minutes (-10)))) /\
  time_str (seconds_ago sample_now (at_minutes (-10))) = "10m ago".
Proof.
  split; [|reflexivity].
  apply (time_ago_bounds sample_now (at_minutes (-10))). vm_compute. discriminate.
Defined.

Example time_str_samples :
  time_str 59 = "59s ago" /\ time_str 60 = "1m ago" /\ time_str 3599 = "59m ago" /\
  time_str 3600 = "1h ago" /\ time_str 90000 = "25h ago" /\ time_str (-5) = "-5s ago".
Proof. repeat split. Qed.

(** *** The table of recent readings *)

Lemma StronglySorted_app_r {A} (R : A -> A -> Prop) l1 l2 :
  StronglySorted R (l1 ++ l2) -> StronglySorted R l2.
Proof.
  induction l1 as [|a l1 IH]; simpl; [auto|]. intros H.
  apply StronglySorted_inv in H as [H _]. auto.
Qed.

Lemma StronglySorted_rev {A} (R : A -> A -> Prop) l :
  StronglySorted R l -> StronglySorted (fun a b => R b a) (rev l).
Proof.
  induction 1 as [|a l Hl IH Ha]; simpl; [constructor|].
  apply StronglySorted_pairs, ForallOrdPairs_snoc.
  - now apply StronglySorted_pairs.
  - apply Forall_forall. intros b Hb. apply in_rev in Hb.
    rewrite Forall_forall in Ha. auto.
Qed.

(** X23. The table of recent readings shows at most 50 rows, the newest
    first: its readings are the end of the frame of [last_n_readings]
    turned round, so they are in descending order of timestamp and no
    reading of the frame that is left out is newer than one that is
    shown; each row shown is the display of its reading. *)
Theorem recent_rows_newest pd now db minutes limit device_id :
  let df := last_n_readings pd now db minutes limit device_id in
  (length (recent_rows df) <= 50)%nat /\
  StronglySorted (fun a b => timestamp b <= timestamp a) (recent_rows df) /\
  (exists older,
      df = older ++ rev (recent_rows df) /\
      forall o r, In o older -> In r (recent_rows df) -> timestamp o <= timestamp r) /\
  forall strftime round2 th,
    recent_readings strftime round2 df th =
    map (display_of strftime round2 th) (recent_rows df).
Proof.
  intros df.
  assert (Hs : StronglySorted (fun a b => timestamp a <= timestamp b) df).
  { unfold df. rewrite last_n_readings_eq. apply sort_values_sorted. }
  unfold recent_rows, tail. set (k := (length df - 50)%nat).
  assert (Hsplit : df = firstn k df ++ skipn k df)
    by (symmetry; apply firstn_skipn).
  split; [|split; [|split]].
  - rewrite length_rev, length_skipn. unfold k. lia.
  - apply (StronglySorted_rev (fun a b => timestamp a <= timestamp b)).
    rewrite Hsplit in Hs. now apply StronglySorted_app_r in Hs.
  - exists (firstn k df). rewrite rev_involutive. split; [exact Hsplit|].
    intros o r Ho Hr. apply in_rev in Hr. rewrite Hsplit in Hs.
    exact (StronglySorted_app_cross _ _ _ Hs o r Ho Hr).
  - intros strftime round2 th. unfold recent_readings, display_df, tail.
    fold k. now rewrite map_rev.
Qed.

Example recent_rows_window_db :
  map id (recent_rows (last_n_readings stable_sort sample_now window_db None default_limit None))
  = [3; 2; 1].
Proof. reflexivity. Qed.

(** *** The gauge *)

Lemma latest_rows db :
  well_formed db ->
  (forall l, In l (get_latest_by_device db) ->
     exists r, l = latest_of r /\ newest_of db r) /\
  (forall d, In d (map device_id (readings db)) ->
     exists l, In l (get_latest_by_device db) /\ latest_device_id l = d) /\
  NoDup (map latest_device_id (get_latest_by_device db)) /\
  StronglySorted (fun a b => last_seen b <= last_seen a) (get_latest_by_device db).
Proof.
  intros Hwf. unfold get_latest_by_device, order_by_last_seen_desc.
  destruct (device_ids_spec (readings db)) as [Hnd Hin].
  destruct (per_group_rows db (device_ids (readings db)) Hwf) as [Hmap Hrows].
  { intros d. apply Hin. }
  match goal with |- context [sort_by ?le ?l] =>
    assert (HP : Permutation l (sort_by le l)) by apply sort_by_perm end.
  split; [|split; [|split]].
  - intros l Hl. apply (Permutation_in _ (Permutation_sym HP)) in Hl. auto.
  - intros d Hd. apply Hin in Hd. rewrite <- Hmap in Hd.
    apply in_map_iff in Hd as (l & Hl & Hd). exists l. split; [|exact Hl].
    now apply (Permutation_in _ HP).
  - eapply Permutation_NoDup; [apply Permutation_map, HP|]. now rewrite Hmap.
  - eapply StronglySorted_pairs, ForallOrdPairs_impl;
      [|apply StronglySorted_pairs, sort_by_sorted].
    + intros a b H. now apply Z.leb_le.
    + intros x y. rewrite !Z.leb_le. lia.
    + intros x y z. rewrite !Z.leb_le. lia.
Qed.

(** X24. Without device filter the gauge shows the newest reading of
    the store: on a well-formed table that is not empty, [gauge_tds] of
    [get_latest_by_device] is the [tds] of a stored reading whose
    timestamp no stored reading exceeds. *)
Theorem gauge_tds_newest db :
  well_formed db -> readings db <> [] ->
  exists r,
    gauge_tds (get_latest_by_device db) None = Some (tds r) /\
    In r (readings db) /\
    forall o, In o (readings db) -> timestamp o <= timestamp r.
Proof.
  intros Hwf Hne.
  destruct (latest_rows db Hwf) as (Hrows & Hdev & _ & Hsorted).
  destruct (get_latest_by_device db) as [|l rest] eqn:E.
  { exfalso. destruct (readings db) as [|x xs] eqn:Ex; [congruence|].
    destruct (Hdev (device_id x)) as (l & [] & _). now left. }
  destruct (Hrows l (or_introl eq_refl)) as (r & -> & Hr & Hmax).
  exists r. split; [reflexivity|]. split; [exact Hr|].
  intros o Ho.
  destruct (Hdev (device_id o)) as (l' & Hl' & Hd'); [now apply in_map|].
  destruct (Hrows l' Hl') as (r' & -> & Hr' & Hmax').
  assert (Ho' : timestamp o <= timestamp r').
  { simpl in Hd'. specialize (Hmax' o Ho (eq_sym Hd')). lia. }
  apply StronglySorted_inv in Hsorted as [_ Hhead].
  rewrite Forall_forall in Hhead.
  destruct Hl' as [Heq|Hin].
  - apply (f_equal last_seen) in Heq. simpl in Heq. lia.
  - specialize (Hhead _ Hin). simpl in Hhead. lia.
Qed.

Lemma gauge_tds_newest_witness :
  exists r,
    gauge_tds (get_latest_by_device tie_db) None = Some (tds r) /\
    In r (readings tie_db) /\
    forall o, In o (readings tie_db) -> timestamp o <= timestamp r.
Proof.
  apply (gauge_tds_newest tie_db); [by_rows|discriminate].
Defined.

(** X25. With a device filter the gauge shows the newest reading of
    that device: on a well-formed table with a reading of device [d],
    [gauge_tds] is the [tds] of a stored reading of [d] whose timestamp
    no reading of [d] exceeds. *)
Theorem gauge_tds_device db d :
  well_formed db -> d <> "" -> In d (map device_id (readings db)) ->
  exists r,
    gauge_tds (get_latest_by_device db) (Some d) = Some (tds r) /\
    In r (readings db) /\ device_id r = d /\
    forall o, In o (readings db) -> device_id o = d -> timestamp o <= timestamp r.
Proof.
  intros Hwf Hd Hin.
  destruct (latest_rows db Hwf) as (Hrows & Hdev & _ & _).
  destruct (Hdev d Hin) as (l & Hl & Hld).
  unfold gauge_tds. apply String.eqb_neq in Hd. rewrite Hd.
  destruct (filter (fun l => String.eqb (latest_device_id l) d)
              (get_latest_by_device db)) as [|l' rest] eqn:E.
  { assert (H : In l (filter (fun l => String.eqb (latest_device_id l) d)
                        (get_latest_by_device db))).
    { apply filter_In. split; [exact Hl|now apply String.eqb_eq]. }
    rewrite E in H. contradiction. }
  assert (H : In l' (filter (fun l => String.eqb (latest_device_id l) d)
                       (get_latest_by_device db))) by (rewrite E; now left).
  apply filter_In in H as [Hl' Hd'].
  destruct (Hrows l' Hl') as (r & -> & Hr & Hmax).
  apply String.eqb_eq in Hd'. simpl in Hd'.
  exists r. split; [reflexivity|]. split; [exact Hr|]. split; [exact Hd'|].
  intros o Ho Hod. assert (Hor : device_id o = device_id r) by congruence.
  specialize (Hmax o Ho Hor). lia.
Qed.

Lemma gauge_tds_device_witness :
  exists r,
    gauge_tds (get_latest_by_device tie_db) (Some "d1") = Some (tds r) /\
    In r (readings tie_db) /\ device_id r = "d1" /\
    forall o, In o (readings tie_db) -> device_id o = "d1" ->
              timestamp o <= timestamp r.
Proof.
  apply (gauge_tds_device tie_db "d1"); [by_rows|discriminate|].
  right. left. reflexivity.
Defined.

(** *** The chart *)

Lemma unique_In x l : In x (unique l) <-> In x l.
Proof.
  induction l as [|y l IH]; simpl; [tauto|].
  rewrite filter_In, IH, negb_true_iff, String.eqb_neq.
  destruct (string_dec y x) as [->|Hn]; [tauto|].
  split; [tauto|]. intros [H|H]; [tauto|]. right. split; [exact H|congruence].
Qed.

Lemma unique_NoDup l : NoDup (unique l).
Proof.
  induction l as [|y l IH]; simpl; constructor.
  - rewrite filter_In, negb_true_iff, String.eqb_neq. tauto.
  - now apply NoDup_filter.
Qed.

Lemma list_sum_one (U : list string) (x : string) :
  NoDup U -> In x U ->
  list_sum (map (fun d => if String.eqb x d then 1 else 0)%nat U) = 1%nat.
Proof.
  induction 1 as [|d U Hd HU IH]; simpl; [contradiction|].
  intros [->|Hin].
  - rewrite String.eqb_refl.
    assert (H0 : list_sum (map (fun d => if String.eqb x d then 1 else 0)%nat U) = 0%nat).
    { clear IH HU. induction U as [|e U IHU]; simpl; [reflexivity|].
      destruct (String.eqb_spec x e) as [->|Hn]; [exfalso; apply Hd; now left|].
      apply IHU. intros H. apply Hd. now right. }
    now rewrite H0.
  - destruct (String.eqb_spec x d) as [->|Hn]; [contradiction|]. now apply IH.
Qed.

Lemma points_count (df : list reading) (U : list string) :
  NoDup U -> (forall r, In r df -> In (device_id r) U) ->
  list_sum (map (fun d => length (filter (fun r => String.eqb (device_id r) d) df)) U)
  = length df.
Proof.
  intros HU. induction df as [|x df IH]; intros Hall.
  - simpl. clear. induction U as [|d U IHU]; simpl; auto.
  - assert (Hsum : forall U' : list string,
              list_sum (map (fun d => length (filter (fun r => String.eqb (device_id r) d)
                                                (x :: df))) U') =
              (list_sum (map (fun d => if String.eqb (device_id x) d then 1 else 0) U') +
               list_sum (map (fun d => length (filter (fun r => String.eqb (device_id r) d)
                                                 df)) U'))%nat).
    { induction U' as [|d U' IHU]; simpl; [reflexivity|].
      simpl in IHU. rewrite IHU.
      destruct (String.eqb (device_id x) d); simpl; lia. }
    rewrite Hsum.
    rewrite (list_sum_one U (device_id x) HU) by (apply Hall; now left).
    rewrite IH by (intros r Hr; apply Hall; now right).
    reflexivity.
Qed.

(** X26. Without device filter the chart has one trace for each device
    of the frame, under distinct names; a trace holds the points of the
    readings of its device, at least one, and the traces together hold
    as many points as the frame has rows: every reading is drawn once. *)
Theorem create_tds_chart_all df :
  let traces := create_tds_chart df None in
  NoDup (map trace_name traces) /\
  (forall d, In d (map trace_name traces) <-> In d (map device_id df)) /\
  Forall
    (fun t =>
       trace_x t <> [] /\
       trace_x t = map timestamp
                     (filter (fun r => String.eqb (device_id r) (trace_name t)) df) /\
       trace_y t = map tds
                     (filter (fun r => String.eqb (device_id r) (trace_name t)) df))
    traces /\
  list_sum (map (fun t => length (trace_x t)) traces) = length df.
Proof.
  intros traces. unfold traces, create_tds_chart.
  assert (Hnames : map trace_name
                     (map (device_trace df) (unique (map device_id df)))
                   = unique (map device_id df)).
  { rewrite map_map. simpl. apply map_id. }
  split; [|split; [|split]].
  - rewrite Hnames. apply unique_NoDup.
  - intros d. rewrite Hnames. apply unique_In.
  - apply Forall_forall. intros t Ht. apply in_map_iff in Ht as (d & <- & Hd).
    simpl. split; [|split; reflexivity].
    apply unique_In, in_map_iff in Hd as (r & Hr & Hin).
    intros E. apply map_eq_nil in E.
    assert (H : In r (filter (fun r => String.eqb (device_id r) d) df)).
    { apply filter_In. split; [exact Hin|now apply String.eqb_eq]. }
    rewrite E in H. contradiction.
  - rewrite map_map. simpl.
    rewrite <- (points_count df (unique (map device_id df)) (unique_NoDup _)).
    + apply f_equal, map_ext. intros d. apply length_map.
    + intros r Hr. apply unique_In. now apply in_map.
Qed.

Example create_tds_chart_tie_db :
  map (fun t => (trace_name t, trace_x t))
    (create_tds_chart (last_n_readings stable_sort sample_now tie_db None default_limit None) None)
  = [("d1", [at_minutes (-30); at_minutes (-30)]);
     ("d2", [at_minutes (-20); at_minutes (-5)])].
Proof. reflexivity. Qed.

End CardFacts.
